(** * mSIM server core: a shallow embedding of the Go sources

    The development follows the package structure of the repository:
    [protocol] (line codec), [models] and [db] (the SQLite-backed
    repository), and [server] (command handlers and the file-transfer
    manager).

    Conventions.
    - A Go [string] is modelled by the list of the runes that
      [for _, r := range s] yields, i.e. by its Unicode code points
      (type [N]).  The codec only ever compares runes with five ASCII
      characters, all of which are one byte long in UTF-8, so the byte
      index test [i < len(s)-1] of [unescape] holds for a backslash
      exactly when some rune follows it.
    - An [error] value is [None] for Go's [nil] and [Some e] otherwise.
    - Handlers are state transformers on the server; everything a handler
      writes to a socket or executes on the repository is appended, in
      program order, to the [trace] of the server. *)

From Stdlib Require Import ZArith NArith List String Ascii Bool Lia.
From Stdlib Require Import Numbers.DecimalString.
From stdpp Require Import gmap list.

Open Scope N_scope.

Abbreviation rune := N (only parsing).
Abbreviation gostring := (list N) (only parsing).

(** String literals of the source, as rune lists. *)
Definition str (s : string) : gostring :=
  map N_of_ascii (list_ascii_of_string s).

(** Go's [==] on strings. *)
Definition streq (a b : gostring) : bool := bool_decide (a = b).

(** The error values that the modelled packages declare or receive. *)
Inductive error : Set :=
| protocol_ErrInvalidPacket   (* protocol.ErrInvalidPacket *)
| sql_ErrNoRows               (* database/sql.ErrNoRows *)
| db_ErrNoRows                (* db.ErrNoRows, declared in db.go and never returned *)
| sql_ErrConstraint           (* a UNIQUE violation reported by the driver *)
| ErrSessionNotFound
| ErrSessionNotPending
| ErrNoAvailablePorts.

#[global] Instance error_eq_dec : EqDecision error.
Proof. solve_decision. Defined.

(** ** strings *)

Module strings.

Definition HasSuffix (s suffix : gostring) : bool :=
  (length suffix <=? length s)%nat
  && streq (drop (length s - length suffix) s) suffix.

Definition TrimSuffix (s suffix : gostring) : gostring :=
  if HasSuffix s suffix then take (length s - length suffix) s else s.

Fixpoint Join (elems : list gostring) (sep : gostring) : gostring :=
  match elems with
  | [] => []
  | [e] => e
  | e :: rest => e ++ sep ++ Join rest sep
  end.

(** unicode.IsSpace, the predicate [TrimSpace] removes by. *)
Definition IsSpace (r : rune) : bool :=
  ((9 <=? r) && (r <=? 13)) || (r =? 32) || (r =? 133) || (r =? 160)
  || (r =? 5760) || ((8192 <=? r) && (r <=? 8202)) || (r =? 8232)
  || (r =? 8233) || (r =? 8239) || (r =? 8287) || (r =? 12288).

Fixpoint TrimLeft (s : gostring) : gostring :=
  match s with
  | r :: s' => if IsSpace r then TrimLeft s' else s
  | [] => []
  end.

Definition TrimSpace (s : gostring) : gostring :=
  rev (TrimLeft (rev (TrimLeft s))).

End strings.

(** ** package protocol (protocol/protocol.go) *)

Module protocol.

Definition backslash : rune := 92.
Definition pipe : rune := 124.
Definition comma : rune := 44.
Definition LF : rune := 10.
Definition CR : rune := 13.
Definition letter_n : rune := 110.
Definition letter_r : rune := 114.

Record Packet : Set := mkPacket {
  Type_ : gostring;
  Destination : gostring;
  Content : gostring;
  Fields : list gostring
}.

(** The loop of [splitUnescaped]: [parts], [current] and [escape] are
    the three local variables, [s] is what is left of the range. *)
Fixpoint splitUnescaped_loop (s : gostring) (delimiter : rune)
    (parts : list gostring) (current : gostring) (escape : bool)
    : list gostring :=
  match s with
  | [] => parts ++ [current]
  | r :: s' =>
      if escape then
        splitUnescaped_loop s' delimiter parts (current ++ [r]) false
      else if r =? backslash then
        splitUnescaped_loop s' delimiter parts (current ++ [r]) true
      else if r =? delimiter then
        splitUnescaped_loop s' delimiter (parts ++ [current]) [] false
      else
        splitUnescaped_loop s' delimiter parts (current ++ [r]) false
  end.

Definition splitUnescaped (s : gostring) (delimiter : rune) : list gostring :=
  splitUnescaped_loop s delimiter [] [] false.

(** What the [switch] of [unescape] writes for the rune after a backslash. *)
Definition unescape_rune (r : rune) : gostring :=
  if r =? pipe then [pipe]
  else if r =? comma then [comma]
  else if r =? backslash then [backslash]
  else if r =? letter_n then [LF]
  else if r =? letter_r then [CR]
  else [backslash; r].

(** The loop of [unescape].  [i < len(s)-1] for a backslash at byte
    index [i] says that the backslash is not the last rune. *)
Fixpoint unescape_loop (s : gostring) (escape : bool) (result : gostring)
    : gostring :=
  match s with
  | [] => if escape then result ++ [backslash] else result
  | r :: s' =>
      if escape then
        unescape_loop s' false (result ++ unescape_rune r)
      else if (r =? backslash) && negb (bool_decide (s' = [])) then
        unescape_loop s' true result
      else
        unescape_loop s' false (result ++ [r])
  end.

Definition unescape (s : gostring) : gostring := unescape_loop s false [].

Definition Escape_rune (r : rune) : gostring :=
  if r =? pipe then [backslash; pipe]
  else if r =? comma then [backslash; comma]
  else if r =? backslash then [backslash; backslash]
  else if r =? LF then [backslash; letter_n]
  else if r =? CR then [backslash; letter_r]
  else [r].

Fixpoint Escape_loop (s : gostring) (result : gostring) : gostring :=
  match s with
  | [] => result
  | r :: s' => Escape_loop s' (result ++ Escape_rune r)
  end.

Definition Escape (s : gostring) : gostring := Escape_loop s [].

Definition ParsePacket (line : gostring) : Packet + error :=
  let line := strings.TrimSuffix line [LF] in
  let line := strings.TrimSuffix line [CR] in
  let parts := splitUnescaped line pipe in
  if (length parts <? 1)%nat then inr protocol_ErrInvalidPacket
  else
    let pkt := mkPacket (unescape (nth 0 parts [])) [] [] [] in
    if (length parts =? 2)%nat then
      let content := unescape (nth 1 parts []) in
      inl (mkPacket (Type_ pkt) [] content (splitUnescaped content pipe))
    else if (3 <=? length parts)%nat then
      let content := unescape (nth 2 parts []) in
      inl (mkPacket (Type_ pkt) (unescape (nth 1 parts [])) content
                    (splitUnescaped content pipe))
    else inl pkt.

Definition FormatPacket (pktType destination content : gostring) : gostring :=
  let parts := [Escape pktType] in
  let parts := if streq destination [] then parts
               else parts ++ [Escape destination] in
  let parts := if streq content [] then parts
               else parts ++ [Escape content] in
  strings.Join parts [pipe] ++ [LF].

Definition FormatSimplePacket (pktType content : gostring) : gostring :=
  FormatPacket pktType [] content.

End protocol.

(** ** What the program takes from outside the repository

    The Go standard library ([time]), the bcrypt package and the order
    in which [range] walks a map are not part of the repository; the
    embedding takes them as an interface.  Instants are of type [time_Time];
    every instant the server stores or sends goes through one of the two
    layouts below. *)

Class Runtime : Type := {
  time_Time : Type;
  (** [t.Format(time.RFC3339)] *)
  Format_RFC3339 : time_Time -> gostring;
  (** [t.Format("2006-01-02T15:04:05Z")] *)
  Format_Z : time_Time -> gostring;
  (** [time.Parse("2006-01-02T15:04:05Z", s)]; [None] is a non-nil error *)
  Parse_Z : gostring -> option time_Time;
  (** [bcrypt.CompareHashAndPassword(hash, password) == nil] *)
  CompareHashAndPassword : gostring -> gostring -> bool;
  (** the order in which [for k, v := range m] visits a map *)
  map_range : gmap gostring Z -> list (gostring * Z);
  map_range_perm : forall m, map_range m ≡ₚ map_to_list m
}.

(** [strconv.Itoa] *)
Definition Itoa (n : Z) : gostring := str (NilZero.string_of_int (Z.to_int n)).

(** Comparison of TEXT values under SQLite's BINARY collation.  UTF-8
    preserves the order of code points, so comparing rune by rune is
    comparing byte by byte. *)
Fixpoint text_compare (a b : gostring) : comparison :=
  match a, b with
  | [], [] => Eq
  | [], _ :: _ => Lt
  | _ :: _, [] => Gt
  | x :: a', y :: b' =>
      match x ?= y with
      | Eq => text_compare a' b'
      | c => c
      end
  end.

Definition text_gt (a b : gostring) : bool :=
  match text_compare a b with Gt => true | _ => false end.

Definition text_le (a b : gostring) : bool :=
  match text_compare a b with Gt => false | _ => true end.

(** ** package models *)

Module models.

(** The rows of [contacts] and [messages].  The surrogate key [id] is
    left out: no statement of db.go selects on it and no handler reads
    it. *)
Record Contact : Set := mkContact {
  Owner : gostring;
  Contact_ : gostring;
  Nick : gostring
}.

Record Message : Set := mkMessage {
  Sender : gostring;
  Recipient : gostring;
  Text : gostring;
  Timestamp : gostring;   (* the TEXT column, RFC3339 *)
  Status : gostring       (* "sent" or "ackn" *)
}.

End models.

(** ** package db (db/db.go)

    The repository is the state of the three tables.  Statements act on
    it as SQLite defines them; failures of the storage medium are
    outside the model, so a method returns a non-nil error only where
    db.go or the schema produces one. *)

Module db.
Import models.

Record User : Set := mkUser {
  login : gostring;
  password : gostring;      (* the bcrypt hash *)
  last_online : gostring;   (* TEXT; empty stands for NULL or '' *)
  last_offline : gostring
}.

Record DB : Set := mkDB {
  users : list User;
  contacts : list Contact;
  messages : list Message
}.

Section Methods.
Context {R : Runtime}.

(** [SELECT ... FROM users WHERE login = ?] through [QueryRow] *)
Definition user_row (d : DB) (l : gostring) : option User :=
  find (fun u => streq (login u) l) (users d).

Definition is_contact (owner contact : gostring) (c : Contact) : bool :=
  streq (Owner c) owner && streq (Contact_ c) contact.

Definition UpdateLastOnline (d : DB) (l : gostring) (t : time_Time)
    : DB * option error :=
  (mkDB (map (fun u => if streq (login u) l
                       then mkUser (login u) (password u)
                                   (Format_RFC3339 t) (last_offline u)
                       else u) (users d))
        (contacts d) (messages d), None).

Definition UpdateLastOffline (d : DB) (l : gostring) (t : time_Time)
    : DB * option error :=
  (mkDB (map (fun u => if streq (login u) l
                       then mkUser (login u) (password u)
                                   (last_online u) (Format_RFC3339 t)
                       else u) (users d))
        (contacts d) (messages d), None).

Definition AuthenticateUser (d : DB) (l pw : gostring) : bool * option error :=
  match user_row d l with
  | None => (false, None)                        (* err == sql.ErrNoRows *)
  | Some u => (CompareHashAndPassword (password u) pw, None)
  end.

Definition UserExists (d : DB) (l : gostring) : bool * option error :=
  let count := length (filter (fun u => streq (login u) l = true) (users d)) in
  ((0 <? count)%nat, None).

Definition GetContacts (d : DB) (owner : gostring)
    : list Contact * option error :=
  (filter (fun c => streq (Owner c) owner = true) (contacts d), None).

Definition UpdateContactNick (d : DB) (owner contact nick : gostring)
    : DB * option error :=
  let rowsAffected :=
    length (filter (fun c => is_contact owner contact c = true) (contacts d)) in
  let d' := mkDB (users d)
                 (map (fun c => if is_contact owner contact c
                                then mkContact (Owner c) (Contact_ c) nick
                                else c) (contacts d))
                 (messages d) in
  if (rowsAffected =? 0)%nat then (d', Some sql_ErrNoRows) else (d', None).

Definition DeleteContact (d : DB) (owner contact : gostring)
    : DB * option error :=
  let rowsAffected :=
    length (filter (fun c => is_contact owner contact c = true) (contacts d)) in
  let d' := mkDB (users d)
                 (filter (fun c => is_contact owner contact c = false) (contacts d))
                 (messages d) in
  if (rowsAffected =? 0)%nat then (d', Some sql_ErrNoRows) else (d', None).

Definition SaveMessage (d : DB) (sender recipient text : gostring)
    (timestamp : time_Time) : DB * option error :=
  (mkDB (users d) (contacts d)
        (messages d ++ [mkMessage sender recipient text
                                  (Format_RFC3339 timestamp) (str "sent")]),
   None).

Definition acknowledges (sender recipient ts : gostring) (m : Message) : bool :=
  streq (Sender m) sender && streq (Recipient m) recipient
  && streq (Timestamp m) ts.

Definition MarkMessageAcknowledged (d : DB) (sender recipient : gostring)
    (timestamp : time_Time) : DB * option error :=
  (mkDB (users d) (contacts d)
        (map (fun m => if acknowledges sender recipient
                                       (Format_RFC3339 timestamp) m
                       then mkMessage (Sender m) (Recipient m) (Text m)
                                      (Timestamp m) (str "ackn")
                       else m) (messages d)),
   None).

(** [WHERE recipient = ? AND timestamp > ? AND timestamp <= ?] *)
Definition in_window (recipient lastOffline lastOnline : gostring)
    (m : Message) : bool :=
  streq (Recipient m) recipient
  && text_gt (Timestamp m) lastOffline
  && text_le (Timestamp m) lastOnline.

(** [SELECT sender, COUNT( * ) ... GROUP BY sender]: one row per sender
    that occurs, with the number of its rows. *)
Definition group_by_sender (rows : list Message) : list (gostring * Z) :=
  map (fun s => (s, Z.of_nat (length
                   (filter (fun m => streq (Sender m) s = true) rows))))
      (remove_dups (map Sender rows)).

Definition GetOfflineMessageCounts (d : DB) (recipient : gostring)
    : gmap gostring Z * option error :=
  match user_row d recipient with
  | None => (∅, Some sql_ErrNoRows)
  | Some u =>
      let lastOfflineStr :=
        if streq (last_offline u) [] then str "1970-01-01T00:00:00Z"
        else last_offline u in
      let lastOnlineStr :=
        if streq (last_online u) [] then str "2099-12-31T23:59:59Z"
        else last_online u in
      let rows :=
        group_by_sender
          (filter (fun m => in_window recipient lastOfflineStr lastOnlineStr m
                            = true) (messages d)) in
      (fold_left (fun counts row => <[row.1 := row.2]> counts) rows ∅, None)
  end.

(** [INSERT INTO contacts]: the UNIQUE(owner, contact) constraint makes
    the statement fail when the pair is there already. *)
Definition AddContact (d : DB) (owner contact nick : gostring)
    : DB * option error :=
  if existsb (is_contact owner contact) (contacts d) then
    (d, Some sql_ErrConstraint)
  else
    (mkDB (users d) (contacts d ++ [mkContact owner contact nick])
          (messages d), None).

Definition ContactExists (d : DB) (owner contact : gostring)
    : bool * option error :=
  let count :=
    length (filter (fun c => is_contact owner contact c = true) (contacts d)) in
  ((0 <? count)%nat, None).

(** [(sender = ? AND recipient = ?) OR (sender = ? AND recipient = ?)]
    with the arguments owner, contact, contact, owner *)
Definition between (owner contact : gostring) (m : Message) : bool :=
  (streq (Sender m) owner && streq (Recipient m) contact)
  || (streq (Sender m) contact && streq (Recipient m) owner).

Definition ClearHistory (d : DB) (owner contact : gostring)
    : DB * option error :=
  (mkDB (users d) (contacts d)
        (filter (fun m => between owner contact m = false) (messages d)),
   None).

(** The methods that change the repository, as values, so that a trace
    can name them. *)
Inductive call : Type :=
| CallUpdateLastOnline (l : gostring) (t : time_Time)
| CallUpdateLastOffline (l : gostring) (t : time_Time)
| CallUpdateContactNick (owner contact nick : gostring)
| CallDeleteContact (owner contact : gostring)
| CallSaveMessage (sender recipient text : gostring) (timestamp : time_Time)
| CallMarkMessageAcknowledged (sender recipient : gostring) (timestamp : time_Time).

Definition run (c : call) (d : DB) : DB * option error :=
  match c with
  | CallUpdateLastOnline l t => UpdateLastOnline d l t
  | CallUpdateLastOffline l t => UpdateLastOffline d l t
  | CallUpdateContactNick o c n => UpdateContactNick d o c n
  | CallDeleteContact o c => DeleteContact d o c
  | CallSaveMessage s r x t => SaveMessage d s r x t
  | CallMarkMessageAcknowledged s r t => MarkMessageAcknowledged d s r t
  end.

End Methods.
End db.

(** ** package server: sessions and command handlers
    (server/server.go and the handlers file) *)

Module server.
Import models protocol.

(** A socket is named by a number. *)
Abbreviation Conn := nat (only parsing).

(** [LastPing] is only read by the liveness ticker and is left out. *)
Record Session : Set := mkSession {
  Login : gostring;
  Conn_ : Conn
}.

Section Handlers.
Context {R : Runtime}.

(** What a handler does to the outside, in program order. *)
Inductive effect : Type :=
| ConnWrite (conn : Conn) (packet : gostring)   (* conn.Write([]byte(packet)) *)
| Repo (c : db.call).                        (* a call of a db method *)

Record Server : Type := mkServer {
  db_ : db.DB;
  sessions : gmap gostring Session;
  trace : list effect
}.

Definition write (s : Server) (conn : Conn) (packet : gostring) : Server :=
  mkServer (db_ s) (sessions s) (trace s ++ [ConnWrite conn packet]).

(** [s.db.M(args)] for a method that changes the repository *)
Definition repo (s : Server) (c : db.call) : Server * option error :=
  let '(d, err) := db.run c (db_ s) in
  (mkServer d (sessions s) (trace s ++ [Repo c]), err).

(** A write error is logged and nothing else, so a write is one effect. *)
Definition sendPacket (s : Server) (conn : Conn) (pktType : gostring)
    (fields : list gostring) : Server :=
  let parts := [Escape pktType] in
  let parts := fold_left (fun parts field => parts ++ [Escape field])
                         fields parts in
  write s conn (strings.Join parts [pipe] ++ [LF]).

Definition sendPacketRaw (s : Server) (conn : Conn)
    (pktType rawContent : gostring) : Server :=
  write s conn (Escape pktType ++ [pipe] ++ rawContent ++ [LF]).

Definition sendOK (s : Server) (conn : Conn) (operation : gostring) : Server :=
  if negb (streq operation []) then sendPacket s conn (str "ok") [operation]
  else sendPacket s conn (str "ok") [].

Definition sendError (s : Server) (conn : Conn)
    (operation description : gostring) : Server :=
  if negb (streq operation []) then
    sendPacket s conn (str "fail") [operation; description]
  else sendPacket s conn (str "fail") [description].

Definition sendBye (s : Server) (conn : Conn) (reason details : gostring)
    : Server :=
  if negb (streq details []) then sendPacket s conn (str "bye") [reason; details]
  else if negb (streq reason []) then sendPacket s conn (str "bye") [reason]
  else sendPacket s conn (str "bye") [].

Definition addSession (s : Server) (l : gostring) (session : Session) : Server :=
  mkServer (db_ s) (<[l := session]> (sessions s)) (trace s).

Definition removeSession (s : Server) (l : gostring) : Server :=
  mkServer (db_ s) (delete l (sessions s)) (trace s).

Definition getSession (s : Server) (l : gostring) : option Session :=
  sessions s !! l.

Definition getSessionConn (s : Server) (l : gostring) : option Conn :=
  match getSession s l with
  | None => None
  | Some session => Some (Conn_ session)
  end.

Definition notifyContactsOnline (s : Server) (l : gostring) (timestamp : time_Time)
    : Server :=
  let '(contacts, err) := db.GetContacts (db_ s) l in
  match err with
  | Some _ => s
  | None =>
      let ts := Format_RFC3339 timestamp in
      fold_left (fun s contact =>
                   match getSessionConn s (Contact_ contact) with
                   | Some conn => sendPacket s conn (str "on") [l; ts]
                   | None => s
                   end) contacts s
  end.

(** The block that opens [handleAuth] and, after the login check,
    [handleAck]: the two arguments are DESTINATION and CONTENT when a
    destination is there, and the first two of [Fields] otherwise;
    [None] where fewer than two fields make the handler answer with its
    format error. *)
Definition twoArguments (pkt : Packet) : option (gostring * gostring) :=
  if negb (streq (Destination pkt) []) then
    Some (Destination pkt, Content pkt)
  else if (length (Fields pkt) <? 2)%nat then None
  else Some (nth 0 (Fields pkt) [], nth 1 (Fields pkt) []).

(** [now] is the value of [time.Now().UTC()] on the success path. *)
Definition handleAuth (s : Server) (session : Session) (pkt : Packet)
    (conn : Conn) (now : time_Time) : Server * Session :=
  match twoArguments pkt with
  | None => (sendError s conn (str "auth") (str "Invalid credentials"), session)
  | Some (l, pw) =>
      if streq l [] || streq pw [] then
        (sendError s conn (str "auth") (str "Invalid credentials"), session)
      else if negb (streq (Login session) []) then
        (sendOK s conn (str "auth"), session)
      else
        match db.AuthenticateUser (db_ s) l pw with
        | (_, Some _) =>
            (sendError s conn (str "auth") (str "Internal error"), session)
        | (false, None) =>
            (sendError s conn (str "auth") (str "Invalid credentials"), session)
        | (true, None) =>
            let session := mkSession l (Conn_ session) in
            let s := addSession s l session in
            let s := sendOK s conn (str "auth") in
            let '(s, _) := repo s (db.CallUpdateLastOnline l now) in
            (notifyContactsOnline s l now, session)
        end
  end.

(** [timestamp] is the value of [time.Now().UTC()] before [SaveMessage]. *)
Definition handleMessage (s : Server) (session : Session) (pkt : Packet)
    (conn : Conn) (timestamp : time_Time) : Server :=
  if streq (Login session) [] then
    sendError s conn (str "msg") (str "Not authenticated")
  else
    let recipient := Destination pkt in
    let text := Content pkt in
    if streq recipient [] then
      sendError s conn (str "msg") (str "Recipient required")
    else if streq text [] then
      sendError s conn (str "msg") (str "Message text required")
    else
      match db.UserExists (db_ s) recipient with
      | (_, Some _) => sendError s conn (str "msg") (str "Internal error")
      | (false, None) => sendError s conn (str "msg") (str "Recipient not found")
      | (true, None) =>
          match repo s (db.CallSaveMessage (Login session) recipient text
                                           timestamp) with
          | (s, Some _) => sendError s conn (str "msg") (str "Internal error")
          | (s, None) =>
              let s :=
                match getSessionConn s recipient with
                | Some recipientConn =>
                    let timestampStr := Format_Z timestamp in
                    let packet :=
                      str "msg|" ++ Escape (Login session) ++ [pipe]
                      ++ Escape text ++ [pipe] ++ timestampStr ++ [LF] in
                    write s recipientConn packet
                | None => s
                end in
              sendOK s conn (str "msg")
          end
      end.

Definition handleAck (s : Server) (session : Session) (pkt : Packet)
    (conn : Conn) : Server :=
  if streq (Login session) [] then
    sendError s conn (str "ack") (str "Not authenticated")
  else
    match twoArguments pkt with
    | None => sendError s conn (str "ack") (str "Invalid ack format")
    | Some (sender, timestampStr) =>
        if streq sender [] || streq timestampStr [] then
          sendError s conn (str "ack") (str "Invalid ack format")
        else
          match Parse_Z timestampStr with
          | None => sendError s conn (str "ack") (str "Invalid timestamp")
          | Some timestamp =>
              match repo s (db.CallMarkMessageAcknowledged
                              sender (Login session) timestamp) with
              | (s, Some _) =>
                  sendError s conn (str "ack") (str "Internal error")
              | (s, None) =>
                  let s := sendOK s conn (str "ack") in
                  match getSessionConn s sender with
                  | Some senderConn =>
                      sendPacket s senderConn (str "ack")
                                 [Login session; timestampStr]
                  | None => s
                  end
              end
          end
    end.

Definition handleRenameContact (s : Server) (session : Session) (pkt : Packet)
    (conn : Conn) : Server :=
  if streq (Login session) [] then
    sendError s conn (str "ren") (str "Not authenticated")
  else
    let args :=
      if negb (streq (Destination pkt) []) then
        Some (Destination pkt,
              if (0 <? length (Fields pkt))%nat then nth 0 (Fields pkt) []
              else Content pkt)
      else if (length (Fields pkt) <? 2)%nat then None
      else Some (nth 0 (Fields pkt) [], nth 1 (Fields pkt) []) in
    match args with
    | None => sendError s conn (str "ren") (str "Invalid data")
    | Some (contact, nick) =>
        if streq contact [] || streq nick [] then
          sendError s conn (str "ren") (str "Invalid data")
        else
          match repo s (db.CallUpdateContactNick (Login session) contact nick)
          with
          | (s, Some err) =>
              if bool_decide (err = db_ErrNoRows) then
                sendError s conn (str "ren") (str "Contact not found")
              else sendError s conn (str "ren") (str "Internal error")
          | (s, None) => sendOK s conn (str "ren")
          end
    end.

Definition handleDeleteContact (s : Server) (session : Session) (pkt : Packet)
    (conn : Conn) : Server :=
  if streq (Login session) [] then
    sendError s conn (str "del") (str "Not authenticated")
  else
    let contact :=
      if negb (streq (Destination pkt) []) then Destination pkt
      else if (0 <? length (Fields pkt))%nat then nth 0 (Fields pkt) []
      else Content pkt in
    if streq contact [] then
      sendError s conn (str "del") (str "Invalid data")
    else
      match repo s (db.CallDeleteContact (Login session) contact) with
      | (s, Some err) =>
          if bool_decide (err = db_ErrNoRows) then
            sendError s conn (str "del") (str "Contact not found")
          else sendError s conn (str "del") (str "Internal error")
      | (s, None) => sendOK s conn (str "del")
      end.

Definition handleOfflineMessages (s : Server) (session : Session)
    (conn : Conn) : Server :=
  if streq (Login session) [] then
    sendError s conn (str "offmsg") (str "Not authenticated")
  else
    match db.GetOfflineMessageCounts (db_ s) (Login session) with
    | (_, Some _) => sendError s conn (str "offmsg") (str "Internal error")
    | (counts, None) =>
        let items :=
          fold_left (fun items row =>
                       items ++ [Escape row.1 ++ [pipe] ++ Itoa row.2])
                    (map_range counts) [] in
        let response := strings.Join items [comma] in
        sendPacketRaw s conn (str "offmsg") response
    end.

Definition notifyContactsOffline (s : Server) (l : gostring)
    (timestamp : time_Time) : Server :=
  let '(contacts, err) := db.GetContacts (db_ s) l in
  match err with
  | Some _ => s
  | None =>
      let ts := Format_RFC3339 timestamp in
      fold_left (fun s contact =>
                   match getSessionConn s (Contact_ contact) with
                   | Some conn => sendPacket s conn (str "off") [l; ts]
                   | None => s
                   end) contacts s
  end.

(** [now] is the value of [time.Now().UTC()] in the branch of an
    authenticated session. *)
Definition handleBye (s : Server) (session : Session) (pkt : Packet)
    (conn : Conn) (now : time_Time) : Server :=
  let s := sendPacket s conn (str "bye") [] in
  if negb (streq (Login session) []) then
    let s := removeSession s (Login session) in
    let '(s, _) := repo s (db.CallUpdateLastOffline (Login session) now) in
    notifyContactsOffline s (Login session) now
  else s.

(** The end of [handleConnection], after the read loop was left by
    [break]. *)
Definition connectionLost (s : Server) (session : Session) (now : time_Time)
    : Server :=
  if negb (streq (Login session) []) then
    let s := removeSession s (Login session) in
    let '(s, _) := repo s (db.CallUpdateLastOffline (Login session) now) in
    notifyContactsOffline s (Login session) now
  else s.

Definition handleList (s : Server) (session : Session) (conn : Conn)
    : Server :=
  if streq (Login session) [] then
    sendError s conn (str "list") (str "Not authenticated")
  else
    match db.GetContacts (db_ s) (Login session) with
    | (_, Some _) => sendError s conn (str "list") (str "Internal error")
    | (contacts, None) =>
        let items :=
          fold_left (fun items contact =>
                       items ++ [Escape (Contact_ contact) ++ [pipe]
                                 ++ Escape (Nick contact)])
                    contacts [] in
        let response := strings.Join items [comma] in
        sendPacketRaw s conn (str "list") response
    end.

End Handlers.

(** The decoding step of the read loop of [handleConnection], from the
    line that [ReadString] returned to the branch that is taken. *)
Inductive line_branch : Set :=
| SkipEmptyLine
| ParseError (err : error)      (* sends fail|Invalid packet format *)
| Dispatch (pkt : Packet).      (* s.handlePacket(session, pkt, conn) *)

Definition decodeLine (line : gostring) : line_branch :=
  let line := strings.TrimSpace line in
  if streq line [] then SkipEmptyLine
  else
    match ParsePacket (line ++ [LF]) with
    | inr err => ParseError err
    | inl pkt => Dispatch pkt
    end.

End server.

(** ** package server: the file-transfer manager (server/filetransfer.go)

    Instants are nanosecond readings of the clock here, since the
    manager only adds durations to them and compares them.  Every method
    runs under the manager's locks, so a method is one step on the
    manager's state; the proxy goroutine of an accepted session is
    modelled by the steps it takes on that state. *)

Module filetransfer.

Abbreviation Conn := nat (only parsing).

Definition Minute : Z := 60 * 1000000000.

Record FileSession : Set := mkFileSession {
  ID : gostring;
  Sender : gostring;
  Recipient : gostring;
  Filename : gostring;
  Size : Z;
  Hash : gostring;
  UploadPort : Z;
  DownloadPort : Z;
  UploadConn : option Conn;
  DownloadConn : option Conn;
  Status : gostring;
  CreatedAt : Z;
  ExpiresAt : Z
}.

Record FileTransferManager : Type := mkManager {
  sessions : gmap gostring FileSession;
  portRangeStart : Z;
  portRangeEnd : Z;
  usedPorts : gmap Z bool;
  closed : list Conn            (* the sockets Close() was called on *)
}.

Definition NewFileTransferManager (portStart portEnd : Z)
    : FileTransferManager :=
  mkManager ∅ portStart portEnd ∅ [].

(** [ftm.usedPorts[port]], false for a missing key *)
Definition inUse (usedPorts : gmap Z bool) (port : Z) : bool :=
  default false (usedPorts !! port).

Definition setSession (ftm : FileTransferManager) (id : gostring)
    (session : FileSession) : FileTransferManager :=
  mkManager (<[id := session]> (sessions ftm)) (portRangeStart ftm)
            (portRangeEnd ftm) (usedPorts ftm) (closed ftm).

Definition setStatus (session : FileSession) (status : gostring) : FileSession :=
  mkFileSession (ID session) (Sender session) (Recipient session)
                (Filename session) (Size session) (Hash session)
                (UploadPort session) (DownloadPort session)
                (UploadConn session) (DownloadConn session)
                status (CreatedAt session) (ExpiresAt session).

(** [conn.Close()] on each socket of the session that is not nil *)
Definition closeConns (ftm : FileTransferManager) (session : FileSession)
    : FileTransferManager :=
  mkManager (sessions ftm) (portRangeStart ftm) (portRangeEnd ftm)
            (usedPorts ftm)
            (closed ftm ++ option_list (UploadConn session)
                        ++ option_list (DownloadConn session)).

(** [sessionID] is the value of [generateSessionID()], [now] of
    [time.Now()]. *)
Definition CreateSession (ftm : FileTransferManager)
    (sessionID sender recipient filename : gostring) (size : Z)
    (hash : gostring) (now : Z) : FileTransferManager * FileSession :=
  let session :=
    mkFileSession sessionID sender recipient filename size hash 0 0 None None
                  (str "pending") now (now + 5 * Minute) in
  (setSession ftm sessionID session, session).

(** The scan of [allocatePort]: [count] ports are left to try, starting
    at [port]. *)
Fixpoint allocatePort_scan (count : nat) (port : Z) (usedPorts : gmap Z bool)
    : option Z :=
  match count with
  | O => None
  | S count' =>
      if negb (inUse usedPorts port) then Some port
      else allocatePort_scan count' (port + 1) usedPorts
  end.

(** [for port := ftm.portRangeStart; port <= ftm.portRangeEnd; port++] *)
Definition allocatePort (ftm : FileTransferManager)
    : FileTransferManager * Z * option error :=
  match allocatePort_scan
          (Z.to_nat (portRangeEnd ftm - portRangeStart ftm + 1))
          (portRangeStart ftm) (usedPorts ftm) with
  | Some port =>
      (mkManager (sessions ftm) (portRangeStart ftm) (portRangeEnd ftm)
                 (<[port := true]> (usedPorts ftm)) (closed ftm),
       port, None)
  | None => (ftm, 0%Z, Some ErrNoAvailablePorts)
  end.

Definition releasePort (ftm : FileTransferManager) (port : Z)
    : FileTransferManager :=
  mkManager (sessions ftm) (portRangeStart ftm) (portRangeEnd ftm)
            (delete port (usedPorts ftm)) (closed ftm).

Definition AcceptSession (ftm : FileTransferManager) (sessionID : gostring)
    (now : Z) : FileTransferManager * Z * Z * option error :=
  match sessions ftm !! sessionID with
  | None => (ftm, 0%Z, 0%Z, Some ErrSessionNotFound)
  | Some session =>
      if negb (streq (Status session) (str "pending")) then
        (ftm, 0%Z, 0%Z, Some ErrSessionNotPending)
      else
        match allocatePort ftm with
        | (ftm, _, Some err) => (ftm, 0%Z, 0%Z, Some err)
        | (ftm, uploadPort, None) =>
            match allocatePort ftm with
            | (ftm, _, Some err) =>
                (releasePort ftm uploadPort, 0%Z, 0%Z, Some err)
            | (ftm, downloadPort, None) =>
                let session :=
                  mkFileSession (ID session) (Sender session)
                    (Recipient session) (Filename session) (Size session)
                    (Hash session) uploadPort downloadPort
                    (UploadConn session) (DownloadConn session)
                    (str "accepted") (CreatedAt session)
                    (now + 10 * Minute) in
                (setSession ftm sessionID session,
                 uploadPort, downloadPort, None)
            end
        end
  end.

Definition DeclineSession (ftm : FileTransferManager) (sessionID : gostring)
    : FileTransferManager * option error :=
  match sessions ftm !! sessionID with
  | None => (ftm, Some ErrSessionNotFound)
  | Some session =>
      (setSession ftm sessionID (setStatus session (str "declined")), None)
  end.

Definition CancelSession (ftm : FileTransferManager) (sessionID : gostring)
    : FileTransferManager * option error :=
  match sessions ftm !! sessionID with
  | None => (ftm, Some ErrSessionNotFound)
  | Some session =>
      let ftm := setSession ftm sessionID
                            (setStatus session (str "cancelled")) in
      (closeConns ftm session, None)
  end.

(** [now.After(session.ExpiresAt) && session.Status != "completed"] *)
Definition expired (now : Z) (session : FileSession) : bool :=
  (ExpiresAt session <? now)%Z
  && negb (streq (Status session) (str "completed")).

(** The ports that the sweeper releases for a session: the upload and
    the download port, each if it is positive. *)
Definition sweptPorts (session : FileSession) : list Z :=
  (if (0 <? UploadPort session)%Z then [UploadPort session] else [])
  ++ (if (0 <? DownloadPort session)%Z then [DownloadPort session] else []).

(** One iteration of the loop of [CleanExpired].  The session leaves the
    map right after its status is set, so the new status is not kept. *)
Definition cleanOne (now : Z) (id : gostring) (session : FileSession)
    (ftm : FileTransferManager) : FileTransferManager :=
  if expired now session then
    let ftm := closeConns ftm session in
    let ftm := if (0 <? UploadPort session)%Z
               then releasePort ftm (UploadPort session) else ftm in
    let ftm := if (0 <? DownloadPort session)%Z
               then releasePort ftm (DownloadPort session) else ftm in
    mkManager (delete id (sessions ftm)) (portRangeStart ftm)
              (portRangeEnd ftm) (usedPorts ftm) (closed ftm)
  else ftm.

Definition CleanExpired (ftm : FileTransferManager) (now : Z)
    : FileTransferManager :=
  map_fold (cleanOne now) ftm (sessions ftm).

(** *** The steps of [startProxy]

    [uploadPort] and [downloadPort] are the goroutine's own copies of the
    ports.  The goroutine keeps its pointer to the session; a session
    that the sweeper has removed from the map is no longer seen by the
    manager, so the steps change it only while it is in the map. *)

(** the [timeout] and [done] branches of the wait for both peers *)
Definition proxyGiveUp (ftm : FileTransferManager) (uploadPort downloadPort : Z)
    : FileTransferManager :=
  releasePort (releasePort ftm uploadPort) downloadPort.

(** both peers are connected *)
Definition proxyStartTransfer (ftm : FileTransferManager) (id : gostring)
    (uploadConn downloadConn : Conn) : FileTransferManager :=
  match sessions ftm !! id with
  | None => ftm
  | Some session =>
      setSession ftm id
        (mkFileSession (ID session) (Sender session) (Recipient session)
           (Filename session) (Size session) (Hash session)
           (UploadPort session) (DownloadPort session)
           (Some uploadConn) (Some downloadConn)
           (str "transferring") (CreatedAt session) (ExpiresAt session))
  end.

(** [io.Copy] has returned, with [copyFailed] for [err != nil] *)
Definition proxyFinish (ftm : FileTransferManager) (id : gostring)
    (uploadConn downloadConn : Conn) (uploadPort downloadPort : Z)
    (copyFailed : bool) : FileTransferManager :=
  let ftm := mkManager (sessions ftm) (portRangeStart ftm) (portRangeEnd ftm)
                       (usedPorts ftm)
                       (closed ftm ++ [uploadConn; downloadConn]) in
  let ftm :=
    match sessions ftm !! id with
    | None => ftm
    | Some session =>
        setSession ftm id
          (setStatus session
             (if copyFailed then str "error" else str "completed"))
    end in
  releasePort (releasePort ftm uploadPort) downloadPort.

Definition GetSession (ftm : FileTransferManager) (sessionID : gostring)
    : option FileSession :=
  sessions ftm !! sessionID.

(** The loop of [itoa]: [buf] is the part of the 20-byte buffer that is
    written, [room] the number of bytes that are still free. *)
Fixpoint itoa_loop (room : nat) (n : Z) (buf : gostring) : gostring :=
  match room with
  | O => buf
  | S room' =>
      if (0 <? n)%Z then
        itoa_loop room' (n / 10)%Z (Z.to_N (48 + n mod 10) :: buf)
      else buf
  end.

(** [string('0' + byte(n))] is the rune of the byte, computed modulo 256. *)
Definition itoa (n : Z) : gostring :=
  if (n <? 10)%Z then [Z.to_N ((48 + n) mod 256)]
  else itoa_loop 20 n [].

(** A session holds a port while it is accepted or transferring. *)
Definition holds (session : FileSession) (port : Z) : bool :=
  (streq (Status session) (str "accepted")
   || streq (Status session) (str "transferring"))
  && ((UploadPort session =? port)%Z || (DownloadPort session =? port)%Z).

End filetransfer.

(** ** The client's side of the protocol (the client's protocol file)

    The client has its own codec.  It is modelled here to relate what the
    server writes to what the client reads. *)

Module client.
Import protocol.

(** [strings.HasPrefix] *)
Fixpoint HasPrefix (s prefix : gostring) : bool :=
  match prefix, s with
  | [], _ => true
  | p :: prefix', c :: s' => (c =? p) && HasPrefix s' prefix'
  | _ :: _, [] => false
  end.

(** [strings.ReplaceAll(s, old, new)] for a pattern [old] of one rune,
    which is how [Escape] calls it. *)
Definition ReplaceAll (s : gostring) (old : rune) (new : gostring)
    : gostring :=
  flat_map (fun r => if r =? old then new else [r]) s.

Definition Escape (s : gostring) : gostring :=
  let s := ReplaceAll s backslash [backslash; backslash] in
  let s := ReplaceAll s pipe [backslash; pipe] in
  let s := ReplaceAll s comma [backslash; comma] in
  let s := ReplaceAll s LF [backslash; letter_n] in
  let s := ReplaceAll s CR [backslash; letter_r] in
  s.

(** The [switch] of [Unescape]. *)
Definition Unescape_rune (ch : rune) : gostring :=
  if ch =? pipe then [pipe]
  else if ch =? comma then [comma]
  else if ch =? backslash then [backslash]
  else if ch =? letter_n then [LF]
  else if ch =? letter_r then [CR]
  else [backslash; ch].

Fixpoint Unescape_loop (s : gostring) (escaped : bool) (result : gostring)
    : gostring :=
  match s with
  | [] => if escaped then result ++ [backslash] else result
  | ch :: s' =>
      if escaped then Unescape_loop s' false (result ++ Unescape_rune ch)
      else if ch =? backslash then Unescape_loop s' true result
      else Unescape_loop s' false (result ++ [ch])
  end.

Definition Unescape (s : gostring) : gostring := Unescape_loop s false [].

Fixpoint splitPacket_loop (line : gostring) (parts : list gostring)
    (current : gostring) (escaped : bool) : list gostring :=
  match line with
  | [] =>
      let current := if escaped then current ++ [backslash] else current in
      parts ++ [Unescape current]
  | ch :: line' =>
      if escaped then
        splitPacket_loop line' parts (current ++ [backslash; ch]) false
      else if ch =? backslash then
        splitPacket_loop line' parts current true
      else if ch =? pipe then
        splitPacket_loop line' (parts ++ [Unescape current]) [] false
      else
        splitPacket_loop line' parts (current ++ [ch]) false
  end.

Definition splitPacket (line : gostring) : list gostring :=
  splitPacket_loop line [] [] false.

(** The loop of [splitPacketN]; [line] is [line[bytePos:]]. *)
Fixpoint splitPacketN_loop (line : gostring) (n : Z) (parts : list gostring)
    (current : gostring) (escaped : bool) (count : Z) : list gostring :=
  match line with
  | [] =>
      let current := if escaped then current ++ [backslash] else current in
      parts ++ [Unescape current]
  | ch :: line' =>
      if (n - 1 <=? count)%Z then parts ++ [line]
      else if escaped then
        splitPacketN_loop line' n parts (current ++ [backslash; ch]) false
                          count
      else if ch =? backslash then
        splitPacketN_loop line' n parts current true count
      else if ch =? pipe then
        splitPacketN_loop line' n (parts ++ [Unescape current]) [] false
                          (count + 1)%Z
      else
        splitPacketN_loop line' n parts (current ++ [ch]) false count
  end.

Definition splitPacketN (line : gostring) (n : Z) : list gostring :=
  if (n <=? 0)%Z then [line]
  else splitPacketN_loop line n [] [] false 0%Z.

Fixpoint SplitList_loop (s : gostring) (parts : list gostring)
    (current : gostring) (escaped : bool) : list gostring :=
  match s with
  | [] =>
      let current := if escaped then current ++ [backslash] else current in
      parts ++ [current]
  | ch :: s' =>
      if escaped then
        SplitList_loop s' parts (current ++ [backslash; ch]) false
      else if ch =? backslash then SplitList_loop s' parts current true
      else if ch =? comma then SplitList_loop s' (parts ++ [current]) [] false
      else SplitList_loop s' parts (current ++ [ch]) false
  end.

Definition SplitList (s : gostring) : list gostring :=
  if streq s [] then [] else SplitList_loop s [] [] false.

Record Contact : Set := mkContact {
  ID : gostring;
  Nick : gostring
}.

Definition ParseContacts (content : gostring) : list Contact :=
  if streq content [] then []
  else
    fold_left (fun contacts item =>
                 let parts := splitPacket item in
                 if (2 <=? length parts)%nat then
                   contacts ++ [mkContact (nth 0 parts []) (nth 1 parts [])]
                 else contacts)
              (SplitList content) [].

(** The decoding step of [readLoop]: the parts handed to the handlers,
    or [None] for a line that is skipped. *)
Definition readLine (line : gostring) : option (list gostring) :=
  let line := strings.TrimSuffix line [LF] in
  if streq line [] then None
  else if HasPrefix line (str "hist|") then Some (splitPacketN line 3)
  else if HasPrefix line (str "stat|") || HasPrefix line (str "list|")
          || HasPrefix line (str "offmsg|") then
    Some (splitPacketN line 2)
  else Some (splitPacket line).

End client.

(** ** Vectors of fields, and the data of the examples *)

(** The line for a vector of fields: every field escaped, the fields
    joined by a pipe, and a line feed.  [server.sendPacket] writes this
    line for [pktType :: fields]. *)
Definition encode (x : list gostring) : gostring :=
  strings.Join (map protocol.Escape x) [protocol.pipe] ++ [protocol.LF].

(** The two shapes of what [Escape] writes for a rune: a backslash and a
    code that [unescape] maps back to the rune, or the rune itself, which
    is then none of backslash, pipe, CR and LF. *)
Inductive escaped_as (r : rune) : gostring -> Prop :=
| escaped_pair c :
    protocol.unescape_rune c = [r] -> escaped_as r [protocol.backslash; c]
| escaped_plain :
    r <> protocol.backslash -> r <> protocol.pipe ->
    r <> protocol.CR -> r <> protocol.LF ->
    escaped_as r [r].

(** The number that a string of decimal digits denotes. *)
Definition decimal_value (s : gostring) : Z :=
  fold_left (fun acc r => (10 * acc + (Z.of_N r - 48))%Z) s 0%Z.

Definition is_digit (r : rune) : Prop := 48 <= r <= 57.

(** The packet that the read loop hands to the dispatcher for a line
    typed by a client. *)
Definition request (line : string) : protocol.Packet :=
  match server.decodeLine (str line ++ [protocol.LF]) with
  | server.Dispatch pkt => pkt
  | _ => protocol.mkPacket [] [] [] []
  end.

(** A runtime to run the handlers on concrete data: an instant is
    carried as its UTC text in the layout of the server, a hash accepts
    the password equal to it, and a map is walked in the order of
    [map_to_list]. *)
Definition plain_runtime : Runtime := {|
  time_Time := gostring;
  Format_RFC3339 := fun t => t;
  Format_Z := fun t => t;
  Parse_Z := fun s => Some s;
  CompareHashAndPassword := fun hash pw => streq hash pw;
  map_range := fun m => map_to_list m;
  map_range_perm := fun m => Permutation_refl (map_to_list m)
|}.

(** * Properties *)

(** ** The codec *)

Section Codec.
Import protocol.

Lemma Escape_loop_app s result :
  Escape_loop s result = result ++ Escape s.
Proof.
  unfold Escape. revert result.
  induction s as [|r s IH]; intros result; simpl.
  - by rewrite app_nil_r.
  - rewrite (IH (Escape_rune r)), IH. by rewrite app_assoc.
Qed.

Lemma Escape_cons r s : Escape (r :: s) = Escape_rune r ++ Escape s.
Proof. unfold Escape at 1. simpl. apply Escape_loop_app. Qed.

Lemma Escape_nil : Escape [] = [].
Proof. reflexivity. Qed.

Lemma Escape_rune_shape r : escaped_as r (Escape_rune r).
Proof.
  unfold Escape_rune.
  destruct (N.eqb_spec r pipe) as [->|?]; [by apply escaped_pair|].
  destruct (N.eqb_spec r comma) as [->|?]; [by apply escaped_pair|].
  destruct (N.eqb_spec r backslash) as [->|?]; [by apply escaped_pair|].
  destruct (N.eqb_spec r LF) as [->|?]; [by apply (escaped_pair _ letter_n)|].
  destruct (N.eqb_spec r CR) as [->|?]; [by apply (escaped_pair _ letter_r)|].
  by apply escaped_plain.
Qed.

Lemma unescape_loop_Escape s rest result :
  unescape_loop (Escape s ++ rest) false result
  = unescape_loop rest false (result ++ s).
Proof.
  revert result. induction s as [|r s IH]; intros result.
  - by rewrite Escape_nil, app_nil_r.
  - rewrite Escape_cons, <- app_assoc.
    destruct (Escape_rune_shape r) as [c Hc|Hb _ _ _]; simpl.
    + rewrite Hc, IH. by rewrite <- app_assoc.
    + apply N.eqb_neq in Hb. rewrite Hb. simpl.
      rewrite IH. by rewrite <- app_assoc.
Qed.

Lemma unescape_Escape s : unescape (Escape s) = s.
Proof.
  unfold unescape.
  rewrite <- (app_nil_r (Escape s)), unescape_loop_Escape. reflexivity.
Qed.

Lemma splitUnescaped_loop_Escape s rest parts current :
  splitUnescaped_loop (Escape s ++ rest) pipe parts current false
  = splitUnescaped_loop rest pipe parts (current ++ Escape s) false.
Proof.
  revert current. induction s as [|r s IH]; intros current.
  - by rewrite Escape_nil, app_nil_r.
  - rewrite Escape_cons, <- app_assoc.
    destruct (Escape_rune_shape r) as [c Hc|Hb Hp _ _]; simpl.
    + rewrite IH. by rewrite <- !app_assoc.
    + apply N.eqb_neq in Hb, Hp. rewrite Hb, Hp.
      rewrite IH. by rewrite <- !app_assoc.
Qed.

Lemma Join_cons2 e e' rest sep :
  strings.Join (e :: e' :: rest) sep = e ++ sep ++ strings.Join (e' :: rest) sep.
Proof. reflexivity. Qed.

Lemma splitUnescaped_loop_pipe rest parts current :
  splitUnescaped_loop (pipe :: rest) pipe parts current false
  = splitUnescaped_loop rest pipe (parts ++ [current]) [] false.
Proof. reflexivity. Qed.

Lemma splitUnescaped_loop_Join x xs parts :
  splitUnescaped_loop (strings.Join (map Escape (x :: xs)) [pipe]) pipe
                      parts [] false
  = parts ++ map Escape (x :: xs).
Proof.
  revert x parts. induction xs as [|y ys IH]; intros x parts.
  - simpl. rewrite <- (app_nil_r (Escape x)) at 1.
    by rewrite splitUnescaped_loop_Escape.
  - rewrite !map_cons, Join_cons2, splitUnescaped_loop_Escape.
    change ([pipe] ++ ?t) with (pipe :: t).
    rewrite splitUnescaped_loop_pipe, <- map_cons, IH.
    by rewrite <- app_assoc.
Qed.

Lemma splitUnescaped_Join x xs :
  splitUnescaped (strings.Join (map Escape (x :: xs)) [pipe]) pipe
  = map Escape (x :: xs).
Proof. apply (splitUnescaped_loop_Join x xs []). Qed.

End Codec.

(** ** Encoding a vector of fields, and decoding it *)

Section RoundTrip.
Import protocol.

Lemma fold_left_snoc_map {A B} (f : A -> B) (l : list A) (acc : list B) :
  fold_left (fun parts field => parts ++ [f field]) l acc = acc ++ map f l.
Proof.
  revert acc. induction l as [|a l IH]; intros acc; simpl.
  - by rewrite app_nil_r.
  - rewrite IH. by rewrite <- app_assoc.
Qed.

Lemma sendPacket_encode `{R : Runtime} (s : server.Server) conn pktType fields :
  server.sendPacket s conn pktType fields
  = server.write s conn (encode (pktType :: fields)).
Proof.
  unfold server.sendPacket, encode. by rewrite fold_left_snoc_map.
Qed.

Lemma TrimSuffix_snoc s r : strings.TrimSuffix (s ++ [r]) [r] = s.
Proof.
  unfold strings.TrimSuffix, strings.HasSuffix.
  rewrite length_app. cbn [length].
  replace (length s + 1 - 1)%nat with (length s) by lia.
  rewrite drop_app_length, take_app_length.
  replace (1 <=? length s + 1)%nat with true
    by (symmetry; apply Nat.leb_le; lia).
  unfold streq. rewrite bool_decide_eq_true_2 by reflexivity. reflexivity.
Qed.

Lemma TrimSuffix_absent s r : r ∉ s -> strings.TrimSuffix s [r] = s.
Proof.
  intros Hr. unfold strings.TrimSuffix, strings.HasSuffix.
  destruct (_ && _) eqn:E; [|done].
  apply andb_true_iff in E as [_ E].
  unfold streq in E. apply bool_decide_eq_true in E.
  exfalso. apply Hr.
  rewrite <- (take_drop (length s - length [r]) s), E.
  apply elem_of_app. right. apply list_elem_of_singleton. reflexivity.
Qed.

Lemma Escape_no_CR s : CR ∉ Escape s.
Proof.
  induction s as [|r s IH].
  - rewrite Escape_nil. apply not_elem_of_nil.
  - rewrite Escape_cons. intros [H|H]%elem_of_app; [|done].
    destruct (Escape_rune_shape r) as [c Hc|_ _ Hcr _].
    + unfold unescape_rune in Hc.
      apply elem_of_cons in H as [H|H]; [discriminate H|].
      apply list_elem_of_singleton in H. subst c. discriminate Hc.
    + apply list_elem_of_singleton in H. congruence.
Qed.

Lemma Join_Escape_no_CR xs : CR ∉ strings.Join (map Escape xs) [pipe].
Proof.
  induction xs as [|x [|y ys] IH].
  - apply not_elem_of_nil.
  - apply Escape_no_CR.
  - rewrite !map_cons, Join_cons2, <- map_cons.
    intros [H|[H|H]%elem_of_app]%elem_of_app.
    + by apply (Escape_no_CR x).
    + apply list_elem_of_singleton in H. discriminate H.
    + by apply IH.
Qed.

(** What [ParsePacket] splits after trimming the line of a vector. *)
Lemma parts_of_encode x xs :
  splitUnescaped
    (strings.TrimSuffix (strings.TrimSuffix (encode (x :: xs)) [LF]) [CR]) pipe
  = map Escape (x :: xs).
Proof.
  unfold encode. rewrite TrimSuffix_snoc.
  rewrite TrimSuffix_absent by apply Join_Escape_no_CR.
  apply splitUnescaped_Join.
Qed.

Lemma splitUnescaped_loop_length s d parts current escape :
  (length parts < length (splitUnescaped_loop s d parts current escape))%nat.
Proof.
  revert parts current escape.
  induction s as [|r s IH]; intros parts current escape; simpl.
  - rewrite length_app. simpl. lia.
  - destruct escape; [apply IH|].
    destruct (r =? backslash); [apply IH|].
    destruct (r =? d); [|apply IH].
    eapply Nat.lt_trans; [|apply IH]. rewrite length_app. simpl. lia.
Qed.

Lemma splitUnescaped_nonempty s d : (1 <= length (splitUnescaped s d))%nat.
Proof.
  unfold splitUnescaped.
  pose proof (splitUnescaped_loop_length s d [] [] false). lia.
Qed.

(** C9. Packet decoding is total and never fails: [splitUnescaped]
    always yields at least one part, [ParsePacket] returns a packet and
    no error for every input, and the read loop of the connection
    handler never takes the branch that answers
    [fail|Invalid packet format]. *)
Theorem ParsePacket_never_fails (line : gostring) :
  (forall s d, (1 <= length (splitUnescaped s d))%nat)
  /\ (exists pkt, ParsePacket line = inl pkt)
  /\ (forall err, server.decodeLine line <> server.ParseError err).
Proof.
  assert (Htotal : forall l, exists pkt, ParsePacket l = inl pkt).
  { intros l. unfold ParsePacket.
    set (parts := splitUnescaped _ pipe).
    pose proof (splitUnescaped_nonempty
                  (strings.TrimSuffix (strings.TrimSuffix l [LF]) [CR]) pipe)
      as Hlen.
    fold parts in Hlen.
    replace (length parts <? 1)%nat with false
      by (symmetry; apply Nat.ltb_ge; lia).
    destruct (length parts =? 2)%nat; [eauto|].
    destruct (3 <=? length parts)%nat; eauto. }
  split; [apply splitUnescaped_nonempty|]. split; [apply Htotal|].
  intros err. unfold server.decodeLine.
  destruct (streq _ []); [discriminate|].
  destruct (Htotal (strings.TrimSpace line ++ [LF])) as [pkt ->].
  discriminate.
Qed.

(** C1 (as amended). For every vector of one, two or three field
    strings, parsing the line built by escaping each field and joining
    with a pipe yields a packet whose type, destination and content are
    exactly the original strings (type; type and content; type,
    destination and content); for a vector of any length the parts that
    [ParsePacket] splits and unescapes are the original fields, of which
    it keeps the first three. *)
Theorem ParsePacket_encode (t d c : gostring) :
  ParsePacket (encode [t]) = inl (mkPacket t [] [] [])
  /\ ParsePacket (encode [t; c])
     = inl (mkPacket t [] c (splitUnescaped c pipe))
  /\ ParsePacket (encode [t; d; c])
     = inl (mkPacket t d c (splitUnescaped c pipe))
  /\ (forall x xs,
        map unescape
            (splitUnescaped
               (strings.TrimSuffix (strings.TrimSuffix (encode (x :: xs)) [LF])
                                   [CR]) pipe)
        = x :: xs).
Proof.
  repeat split.
  - unfold ParsePacket. rewrite parts_of_encode. simpl.
    by rewrite unescape_Escape.
  - unfold ParsePacket. rewrite parts_of_encode. simpl.
    by rewrite !unescape_Escape.
  - unfold ParsePacket. rewrite parts_of_encode. simpl.
    by rewrite !unescape_Escape.
  - intros x xs. rewrite parts_of_encode, map_map.
    rewrite <- (map_id (x :: xs)) at 2.
    apply map_ext. intros a. apply unescape_Escape.
Qed.

(** C1, the claim as stated, fails on a vector of four fields: the
    fourth field does not reach the packet, so two different vectors
    decode to one and the same packet. *)
Lemma ParsePacket_drops_fourth_field :
  ParsePacket (encode [str "fsnd"; str "bob"; str "f.bin"; str "1048576"])
  = inl (mkPacket (str "fsnd") (str "bob") (str "f.bin") [str "f.bin"])
  /\ ParsePacket (encode [str "fsnd"; str "bob"; str "f.bin"; str "20"])
     = ParsePacket (encode [str "fsnd"; str "bob"; str "f.bin"; str "1048576"])
  /\ [str "fsnd"; str "bob"; str "f.bin"; str "20"]
     <> [str "fsnd"; str "bob"; str "f.bin"; str "1048576"].
Proof. repeat split; [vm_compute; reflexivity..|discriminate]. Qed.

End RoundTrip.

(** ** Contacts: rename and delete *)

Section Contacts.
Import models protocol server.
Context {R : Runtime}.

Lemma trace_sendPacket (s : Server) conn pktType fields :
  trace (sendPacket s conn pktType fields)
  = trace s ++ [ConnWrite conn (encode (pktType :: fields))].
Proof. by rewrite sendPacket_encode. Qed.

Lemma db_sendPacket (s : Server) conn pktType fields :
  db_ (sendPacket s conn pktType fields) = db_ s.
Proof. reflexivity. Qed.

Lemma sessions_sendPacket (s : Server) conn pktType fields :
  sessions (sendPacket s conn pktType fields) = sessions s.
Proof. reflexivity. Qed.

Lemma sendError_write (s : Server) conn operation description :
  operation <> [] ->
  sendError s conn operation description
  = write s conn (encode [str "fail"; operation; description]).
Proof.
  intros Hop. unfold sendError, streq.
  rewrite bool_decide_eq_false_2 by done. apply sendPacket_encode.
Qed.

Lemma sendOK_write (s : Server) conn operation :
  operation <> [] ->
  sendOK s conn operation = write s conn (encode [str "ok"; operation]).
Proof.
  intros Hop. unfold sendOK, streq.
  rewrite bool_decide_eq_false_2 by done. apply sendPacket_encode.
Qed.

Lemma trace_sendError (s : Server) conn operation description :
  operation <> [] ->
  trace (sendError s conn operation description)
  = trace s ++ [ConnWrite conn (encode [str "fail"; operation; description])].
Proof. intros Hop. by rewrite sendError_write. Qed.

Lemma trace_sendOK (s : Server) conn operation :
  operation <> [] ->
  trace (sendOK s conn operation)
  = trace s ++ [ConnWrite conn (encode [str "ok"; operation])].
Proof. intros Hop. by rewrite sendOK_write. Qed.

(** What [handleRenameContact] answers in an authenticated session to a
    request that names a contact and a nick: [ok|ren] when the row
    exists and [fail|ren|Internal error] when it does not, since the
    error of [UpdateContactNick] is [sql.ErrNoRows] and the handler
    looks for [db.ErrNoRows]. *)
Lemma handleRenameContact_answer (s : Server) session pkt conn contact :
  Login session <> [] ->
  Destination pkt = contact -> contact <> [] ->
  Fields pkt <> [] -> nth 0 (Fields pkt) [] <> [] ->
  trace (handleRenameContact s session pkt conn)
  = trace s
    ++ [Repo (db.CallUpdateContactNick (Login session) contact
                                       (nth 0 (Fields pkt) []));
        ConnWrite conn
          (if existsb (db.is_contact (Login session) contact)
                      (db.contacts (db_ s))
           then encode [str "ok"; str "ren"]
           else encode [str "fail"; str "ren"; str "Internal error"])].
Proof.
  intros Hlogin Hdest Hcontact Hfields Hnick.
  unfold handleRenameContact, streq.
  rewrite (bool_decide_eq_false_2 (Login session = [])) by done.
  rewrite Hdest.
  rewrite (bool_decide_eq_false_2 (contact = [])) by done. cbn [negb].
  destruct (Fields pkt) as [|f fs] eqn:Ef; [done|]. cbn [length Nat.ltb Nat.leb nth] in *.
  rewrite (bool_decide_eq_false_2 (f = [])) by done. cbn [orb].
  unfold repo. cbn [db.run]. unfold db.UpdateContactNick.
  set (rows := filter _ (db.contacts (db_ s))).
  assert (Hrows : (length rows =? 0)%nat
                  = negb (existsb (db.is_contact (Login session) contact)
                                  (db.contacts (db_ s)))).
  { subst rows. induction (db.contacts (db_ s)) as [|c cs IH]; [done|].
    rewrite filter_cons. cbn [existsb].
    destruct (db.is_contact (Login session) contact c) eqn:Ec.
    - rewrite decide_True by done. reflexivity.
    - rewrite decide_False by (by intros ?). exact IH. }
  rewrite Hrows.
  rewrite (bool_decide_eq_false_2 (contact = [])) by done. cbn [orb].
  destruct (existsb _ _); cbn [negb].
  - rewrite trace_sendOK by done. cbn [trace]. by rewrite <- app_assoc.
  - rewrite bool_decide_eq_false_2 by discriminate.
    rewrite trace_sendError by done. cbn [trace]. by rewrite <- app_assoc.
Qed.

End Contacts.

(** C2. The failing input: alice is authenticated, her contact list is
    empty, and she sends [ren|bob@x|Bobby] and [del|bob@x].  The code
    answers [fail|ren|Internal error] and [fail|del|Internal error]; with
    the row present it answers [ok|ren] and [ok|del]. *)
Theorem ren_del_missing_contact_answer :
  let alice := server.mkSession (str "alice@x") 1 in
  let users := [db.mkUser (str "alice@x") (str "pw") [] [];
                db.mkUser (str "bob@x") (str "pw") [] []] in
  let registry : gmap gostring server.Session := {[ str "alice@x" := alice ]} in
  let empty := server.mkServer (R := plain_runtime)
                 (db.mkDB users [] []) registry [] in
  let one := server.mkServer (R := plain_runtime)
               (db.mkDB users
                  [models.mkContact (str "alice@x") (str "bob@x") (str "Bob")]
                  []) registry [] in
  let answer s :=
    match last (server.trace s) with
    | Some (server.ConnWrite 1%nat packet) => packet
    | _ => []
    end in
  answer (server.handleRenameContact empty alice (request "ren|bob@x|Bobby") 1)
  = str "fail|ren|Internal error" ++ [protocol.LF]
  /\ answer (server.handleDeleteContact empty alice (request "del|bob@x") 1)
     = str "fail|del|Internal error" ++ [protocol.LF]
  /\ answer (server.handleRenameContact one alice (request "ren|bob@x|Bobby") 1)
     = str "ok|ren" ++ [protocol.LF]
  /\ answer (server.handleDeleteContact one alice (request "del|bob@x") 1)
     = str "ok|del" ++ [protocol.LF].
Proof. repeat split; vm_compute; reflexivity. Qed.

(** ** Authentication of a session that is authenticated already *)

Section Auth.
Import models protocol server.
Context {R : Runtime}.

(** C10 (as amended). In a session that is already authenticated, an
    auth request that carries a non-empty login and a non-empty password
    - valid or not - is answered with [ok|auth]; any other auth request
    is answered with [fail|auth|Invalid credentials].  In both cases the
    session's login, the session registry and the repository (hence the
    stored last_online) are unchanged, and the only packet written is
    that answer, on the requester's socket: there is no presence
    fan-out. *)
Theorem handleAuth_authenticated (s : Server) (session : Session)
    (pkt : Packet) (conn : Conn) (now : time_Time) :
  Login session <> [] ->
  let result := handleAuth s session pkt conn now in
  result.2 = session
  /\ sessions result.1 = sessions s
  /\ db_ result.1 = db_ s
  /\ trace result.1
     = trace s
       ++ [ConnWrite conn
             (match twoArguments pkt with
              | Some (l, pw) =>
                  if streq l [] || streq pw [] then
                    encode [str "fail"; str "auth"; str "Invalid credentials"]
                  else encode [str "ok"; str "auth"]
              | None =>
                  encode [str "fail"; str "auth"; str "Invalid credentials"]
              end)].
Proof.
  intros Hlogin result.
  assert (Hresult : exists packet,
            result = (write s conn packet, session)
            /\ packet = match twoArguments pkt with
                        | Some (l, pw) =>
                            if streq l [] || streq pw [] then
                              encode [str "fail"; str "auth";
                                      str "Invalid credentials"]
                            else encode [str "ok"; str "auth"]
                        | None =>
                            encode [str "fail"; str "auth";
                                    str "Invalid credentials"]
                        end).
  { subst result. unfold handleAuth.
    destruct (twoArguments pkt) as [[l pw]|].
    - destruct (streq l [] || streq pw []).
      + rewrite sendError_write by done. eauto.
      + unfold streq at 1. rewrite bool_decide_eq_false_2 by done.
        cbn [negb]. rewrite sendOK_write by done. eauto.
    - rewrite sendError_write by done. eauto. }
  destruct Hresult as (packet & -> & ->). done.
Qed.

End Auth.

(** The theorem at a session of alice: a second auth with a wrong
    password. *)
Lemma handleAuth_authenticated_witness :
  let alice := server.mkSession (str "alice@x") 1 in
  let s := server.mkServer (R := plain_runtime)
             (db.mkDB [db.mkUser (str "alice@x") (str "pw") [] []] [] [])
             {[ str "alice@x" := alice ]} [] in
  server.trace
    (server.handleAuth s alice (request "auth|alice@x|wrong") 1 []).1
  = [server.ConnWrite 1%nat (str "ok|auth" ++ [protocol.LF])].
Proof.
  intros alice s.
  pose proof (handleAuth_authenticated (R := plain_runtime) s alice
                (request "auth|alice@x|wrong") 1%nat []) as H.
  destruct H as (_ & _ & _ & H); [discriminate|].
  rewrite H. vm_compute. reflexivity.
Defined.

(** C10, the claim as stated, fails on an auth request without
    credentials: in alice's authenticated session the lines [auth] and
    [auth|alice@x] are answered with [fail|auth|Invalid credentials]. *)
Lemma handleAuth_authenticated_without_credentials :
  let alice := server.mkSession (str "alice@x") 1 in
  let s := server.mkServer (R := plain_runtime)
             (db.mkDB [db.mkUser (str "alice@x") (str "pw") [] []] [] [])
             {[ str "alice@x" := alice ]} [] in
  server.trace (server.handleAuth s alice (request "auth") 1 []).1
  = [server.ConnWrite 1%nat (str "fail|auth|Invalid credentials" ++ [protocol.LF])]
  /\ server.trace (server.handleAuth s alice (request "auth|alice@x") 1 []).1
     = [server.ConnWrite 1%nat
          (str "fail|auth|Invalid credentials" ++ [protocol.LF])].
Proof. split; vm_compute; reflexivity. Qed.

(** ** Messages: persist, then forward *)

Section Messages.
Import models protocol server.
Context {R : Runtime}.

(** C4 (as amended). For every msg request of an authenticated session
    with a non-empty recipient and a non-empty text: if the recipient is
    not a registered user, the server answers
    [fail|msg|Recipient not found] and the repository is unchanged; if
    the recipient is registered, the row (status sent, server timestamp)
    is appended to the messages by [SaveMessage] before anything is
    written to the recipient's socket, the delivery is attempted exactly
    when the recipient has a session, and the originator then receives
    [ok|msg]. *)
Theorem handleMessage_persist_then_forward (s : Server) (session : Session)
    (pkt : Packet) (conn : Conn) (timestamp : time_Time) :
  Login session <> [] -> Destination pkt <> [] -> Content pkt <> [] ->
  let s' := handleMessage s session pkt conn timestamp in
  let recipient := Destination pkt in
  if (db.UserExists (db_ s) recipient).1 then
    db.messages (db_ s')
    = db.messages (db_ s)
      ++ [mkMessage (Login session) recipient (Content pkt)
                    (Format_RFC3339 timestamp) (str "sent")]
    /\ trace s'
       = trace s
         ++ [Repo (db.CallSaveMessage (Login session) recipient (Content pkt)
                                      timestamp)]
         ++ match sessions s !! recipient with
            | Some peer =>
                [ConnWrite (Conn_ peer)
                       (str "msg|" ++ Escape (Login session) ++ [pipe]
                        ++ Escape (Content pkt) ++ [pipe]
                        ++ Format_Z timestamp ++ [LF])]
            | None => []
            end
         ++ [ConnWrite conn (encode [str "ok"; str "msg"])]
  else
    db_ s' = db_ s
    /\ trace s'
       = trace s
         ++ [ConnWrite conn
               (encode [str "fail"; str "msg"; str "Recipient not found"])].
Proof.
  intros Hlogin Hrecipient Htext s' recipient.
  subst s' recipient. unfold handleMessage, streq.
  rewrite !bool_decide_eq_false_2 by done.
  unfold db.UserExists. cbn [fst].
  destruct (0 <? _)%nat.
  - unfold repo, getSessionConn, getSession. cbn [db.run db.SaveMessage sessions].
    destruct (sessions s !! Destination pkt) as [peer|].
    + rewrite sendOK_write by done. cbn [write db_ trace db.messages].
      split; [reflexivity|]. by rewrite <- !app_assoc.
    + rewrite sendOK_write by done. cbn [write db_ trace db.messages].
      split; [reflexivity|]. by rewrite <- !app_assoc.
  - rewrite sendError_write by done. done.
Qed.

End Messages.

(** The theorem at a message of alice to bob, who is online on socket 2. *)
Lemma handleMessage_persist_then_forward_witness :
  let alice := server.mkSession (str "alice@x") 1 in
  let bob := server.mkSession (str "bob@x") 2 in
  let s := server.mkServer (R := plain_runtime)
             (db.mkDB [db.mkUser (str "alice@x") (str "pw") [] [];
                       db.mkUser (str "bob@x") (str "pw") [] []] [] [])
             (<[ str "bob@x" := bob ]> {[ str "alice@x" := alice ]}) [] in
  let T0 := str "2024-05-01T10:00:00Z" in
  server.trace (server.handleMessage s alice (request "msg|bob@x|hello") 1 T0)
  = [server.Repo (db.CallSaveMessage (R := plain_runtime)
                    (str "alice@x") (str "bob@x") (str "hello") T0);
     server.ConnWrite 2%nat
       (str "msg|alice@x|hello|2024-05-01T10:00:00Z" ++ [protocol.LF]);
     server.ConnWrite 1%nat (str "ok|msg" ++ [protocol.LF])].
Proof.
  intros alice bob s T0.
  pose proof (handleMessage_persist_then_forward (R := plain_runtime) s alice
                (request "msg|bob@x|hello") 1%nat T0) as H.
  cbv zeta in H.
  replace (db.UserExists (server.db_ s)
             (protocol.Destination (request "msg|bob@x|hello"))).1
    with true in H by (vm_compute; reflexivity).
  destruct H as [_ H]; [discriminate..|].
  rewrite H. vm_compute. reflexivity.
Defined.

(** C4, the claim as stated, fails on a msg request without a recipient:
    alice's line [msg|hello] has the non-empty text hello and the empty
    recipient, which is not a registered user, and it is answered with
    [fail|msg|Recipient required]. *)
Lemma handleMessage_without_recipient :
  let alice := server.mkSession (str "alice@x") 1 in
  let s := server.mkServer (R := plain_runtime)
             (db.mkDB [db.mkUser (str "alice@x") (str "pw") [] []] [] [])
             {[ str "alice@x" := alice ]} [] in
  protocol.Content (request "msg|hello") = str "hello"
  /\ (db.UserExists (server.db_ s)
        (protocol.Destination (request "msg|hello"))).1 = false
  /\ server.trace
       (server.handleMessage s alice (request "msg|hello") 1 [])
     = [server.ConnWrite 1%nat (str "fail|msg|Recipient required" ++ [protocol.LF])].
Proof. repeat split; vm_compute; reflexivity. Qed.

(** ** Acknowledgements *)

Section Ack.
Import models protocol server.
Context {R : Runtime}.

Lemma acknowledges_ackn sender recipient ts (m : Message) :
  db.acknowledges sender recipient ts
    (mkMessage (Sender m) (Recipient m) (Text m) (Timestamp m) (str "ackn"))
  = db.acknowledges sender recipient ts m.
Proof. reflexivity. Qed.

Lemma MarkMessageAcknowledged_twice (d : db.DB) sender recipient timestamp :
  let ack d := (db.MarkMessageAcknowledged d sender recipient timestamp).1 in
  ack (ack d) = ack d.
Proof.
  intros ack. subst ack. unfold db.MarkMessageAcknowledged. cbn [fst].
  cbn [db.users db.contacts db.messages]. f_equal.
  rewrite map_map. apply map_ext. intros m.
  destruct (db.acknowledges _ _ _ m) eqn:E.
  - rewrite acknowledges_ackn, E. reflexivity.
  - rewrite E. reflexivity.
Qed.

Lemma MarkMessageAcknowledged_keeps_ackn (d : db.DB) sender recipient timestamp
    (i : nat) (m : Message) :
  db.messages d !! i = Some m -> Status m = str "ackn" ->
  db.messages (db.MarkMessageAcknowledged d sender recipient timestamp).1 !! i
  = Some m.
Proof.
  intros Hi Hm. unfold db.MarkMessageAcknowledged. cbn [fst db.messages].
  rewrite list_lookup_fmap, Hi. cbn [fmap option_fmap option_map]. f_equal.
  destruct (db.acknowledges _ _ _ m); [|reflexivity].
  destruct m as [a b c t st]. cbn in *. by subst st.
Qed.

(** The repository after [handleAck]: the one before, or the one that
    [MarkMessageAcknowledged] leaves for a triple fixed by the session
    and the packet. *)
Lemma db_handleAck (session : Session) (pkt : Packet) (conn : Conn) :
  (forall s, db_ (handleAck s session pkt conn) = db_ s)
  \/ (exists sender timestamp,
        forall s,
          db_ (handleAck s session pkt conn)
          = (db.MarkMessageAcknowledged (db_ s) sender (Login session)
                                        timestamp).1).
Proof.
  unfold handleAck.
  destruct (streq (Login session) []); [by left|].
  destruct (twoArguments pkt) as [[sender timestampStr]|]; [|by left].
  destruct (streq sender [] || streq timestampStr []); [by left|].
  destruct (Parse_Z timestampStr) as [timestamp|]; [|by left].
  right. exists sender, timestamp. intros s.
  unfold repo. cbn [db.run]. unfold db.MarkMessageAcknowledged at 1.
  unfold getSessionConn, getSession.
  destruct (sessions _ !! sender); reflexivity.
Qed.

(** C6. For every (sender, recipient, timestamp) triple, applying ack
    twice is idempotent - the second application leaves every message
    row unchanged - and no application of ack changes a row whose status
    is ackn; this holds for [MarkMessageAcknowledged] and for the whole
    handler [handleAck]. *)
Theorem ack_idempotent (d : db.DB) (sender recipient : gostring)
    (timestamp : time_Time) (s : Server) (session : Session) (pkt : Packet)
    (conn : Conn) :
  let ack d := (db.MarkMessageAcknowledged d sender recipient timestamp).1 in
  let handle s := handleAck s session pkt conn in
  ack (ack d) = ack d
  /\ (forall i m, db.messages d !! i = Some m -> Status m = str "ackn" ->
                  db.messages (ack d) !! i = Some m)
  /\ db_ (handle (handle s)) = db_ (handle s)
  /\ (forall i m, db.messages (db_ s) !! i = Some m -> Status m = str "ackn" ->
                  db.messages (db_ (handle s)) !! i = Some m).
Proof.
  intros ack handle. subst ack handle. cbv beta.
  split; [apply MarkMessageAcknowledged_twice|].
  split; [intros i m; apply MarkMessageAcknowledged_keeps_ackn|].
  destruct (db_handleAck session pkt conn) as [H|(a & t & H)].
  - split; [by rewrite !H|]. intros i m Hi Hm. by rewrite H.
  - split.
    + rewrite !H. apply MarkMessageAcknowledged_twice.
    + intros i m Hi Hm. rewrite H.
      by apply MarkMessageAcknowledged_keeps_ackn.
Qed.

End Ack.

(** ** Offline message counts *)

Section Offline.
Import models protocol server.
Context {R : Runtime}.

Lemma fold_left_insert_lookup (g : gostring -> Z) (ks : list gostring)
    (m0 : gmap gostring Z) (k : gostring) :
  fold_left (fun counts row => <[row.1 := row.2]> counts)
            (map (fun s => (s, g s)) ks) m0 !! k
  = if decide (k ∈ ks) then Some (g k) else m0 !! k.
Proof.
  revert m0. induction ks as [|a ks IH]; intros m0.
  - rewrite decide_False by apply not_elem_of_nil. reflexivity.
  - cbn [map fold_left fst snd]. rewrite IH.
    destruct (decide (k ∈ ks)) as [Hin|Hnin].
    + rewrite decide_True by (by right). reflexivity.
    + destruct (decide (a = k)) as [->|Hne].
      * rewrite decide_True by (by left). apply lookup_insert_eq.
      * rewrite lookup_insert_ne by done.
        rewrite decide_False; [reflexivity|].
        intros [?|?]%elem_of_cons; congruence.
Qed.

Lemma sender_occurs (rows : list Message) (k : gostring) :
  k ∈ map Sender rows
  <-> length (filter (fun m => streq (Sender m) k = true) rows) <> 0%nat.
Proof.
  induction rows as [|m rows IH].
  - split; [intros []%elem_of_nil|done].
  - rewrite filter_cons. cbn [map]. rewrite elem_of_cons, IH.
    unfold streq. destruct (decide (Sender m = k)) as [E|E].
    + rewrite decide_True by (by apply bool_decide_eq_true). cbn [length].
      split; [done|by left].
    + rewrite decide_False
        by (intros H%bool_decide_eq_true; done).
      split; [intros [?|?]; [congruence|done]|by right].
Qed.

(** C5. For every authenticated session, offmsg returns, per sender,
    the count of the messages addressed to the requesting user whose
    timestamp t satisfies last_offline < t <= last_online for the two
    instants stored for the user at the time of the request: the map of
    [GetOfflineMessageCounts] has exactly the senders with a positive
    count, each with its count, and the answer of the handler lists the
    entries of that map, in the order the runtime walks it. *)
Theorem offmsg_counts (s : Server) (session : Session) (conn : Conn)
    (u : db.User) :
  Login session <> [] ->
  db.user_row (db_ s) (Login session) = Some u ->
  db.last_offline u <> [] -> db.last_online u <> [] ->
  let backlog sender :=
    length (filter (fun m => Recipient m = Login session
                             /\ Sender m = sender
                             /\ text_gt (Timestamp m) (db.last_offline u) = true
                             /\ text_le (Timestamp m) (db.last_online u) = true)
                   (db.messages (db_ s))) in
  exists counts,
    db.GetOfflineMessageCounts (db_ s) (Login session) = (counts, None)
    /\ (forall sender,
          counts !! sender
          = if (backlog sender =? 0)%nat then None
            else Some (Z.of_nat (backlog sender)))
    /\ exists rows,
         rows ≡ₚ map_to_list counts
         /\ handleOfflineMessages s session conn
            = write s conn
                (str "offmsg|"
                 ++ strings.Join
                      (map (fun row => Escape row.1 ++ [pipe] ++ Itoa row.2)
                           rows) [comma]
                 ++ [LF]).
Proof.
  intros Hlogin Hrow Hoff Hon backlog.
  set (window :=
         filter (fun m => db.in_window (Login session) (db.last_offline u)
                                       (db.last_online u) m = true)
                (db.messages (db_ s))).
  set (counts := fold_left (fun counts row => <[row.1 := row.2]> counts)
                           (db.group_by_sender window)
                           (∅ : gmap gostring Z)).
  assert (Hget : db.GetOfflineMessageCounts (db_ s) (Login session)
                 = (counts, None)).
  { unfold db.GetOfflineMessageCounts. rewrite Hrow. unfold streq.
    rewrite !bool_decide_eq_false_2 by done. reflexivity. }
  assert (Hbacklog : forall sender,
            length (filter (fun m => streq (Sender m) sender = true) window)
            = backlog sender).
  { intros sender. subst window backlog. cbv beta.
    rewrite list_filter_filter. f_equal. apply list_filter_iff. intros m.
    unfold db.in_window, streq.
    rewrite !andb_true_iff, !bool_decide_eq_true. tauto. }
  exists counts. split; [exact Hget|]. split.
  - intros sender. subst counts. unfold db.group_by_sender.
    rewrite (fold_left_insert_lookup
               (fun k => Z.of_nat (length
                  (filter (fun m => streq (Sender m) k = true) window)))).
    rewrite Hbacklog.
    pose proof (sender_occurs window sender) as Hocc.
    rewrite Hbacklog in Hocc.
    destruct (decide (sender ∈ remove_dups (map Sender window))) as [Hin|Hnin].
    + apply elem_of_remove_dups, Hocc in Hin.
      apply Nat.eqb_neq in Hin. by rewrite Hin.
    + rewrite elem_of_remove_dups, Hocc in Hnin.
      replace (backlog sender) with 0%nat by lia. reflexivity.
  - exists (map_range counts). split; [apply map_range_perm|].
    unfold handleOfflineMessages. rewrite Hget. unfold streq.
    rewrite bool_decide_eq_false_2 by done.
    unfold sendPacketRaw. rewrite fold_left_snoc_map. reflexivity.
Qed.

End Offline.

(** The theorem at scenario 3 of the specification: bob went offline at
    10:00 and is online again since 12:00; alice sent three messages in
    between, and carol one before 10:00. *)
Lemma offmsg_counts_witness :
  let bob := server.mkSession (str "bob@x") 2 in
  let message (sender t : gostring) :=
    models.mkMessage sender (str "bob@x") (str "hi") t (str "sent") in
  let s := server.mkServer (R := plain_runtime)
             (db.mkDB [db.mkUser (str "bob@x") (str "pw")
                                 (str "2024-05-01T12:00:00Z")
                                 (str "2024-05-01T10:00:00Z")]
                      []
                      [message (str "carol@x") (str "2024-05-01T09:59:59Z");
                       message (str "alice@x") (str "2024-05-01T11:00:00Z");
                       message (str "alice@x") (str "2024-05-01T11:00:01Z");
                       message (str "alice@x") (str "2024-05-01T12:00:00Z")])
             {[ str "bob@x" := bob ]} [] in
  exists counts,
    db.GetOfflineMessageCounts (server.db_ s) (str "bob@x") = (counts, None)
    /\ counts !! str "alice@x" = Some 3%Z
    /\ counts !! str "carol@x" = None
    /\ server.trace (server.handleOfflineMessages s bob 2)
       = [server.ConnWrite 2%nat (str "offmsg|alice@x|3" ++ [protocol.LF])].
Proof.
  intros bob message s.
  destruct (offmsg_counts (R := plain_runtime) s bob 2%nat
              (db.mkUser (str "bob@x") (str "pw")
                         (str "2024-05-01T12:00:00Z")
                         (str "2024-05-01T10:00:00Z")))
    as (counts & Hget & Hcount & _);
    [discriminate|reflexivity|discriminate|discriminate|].
  exists counts. split; [exact Hget|].
  split; [rewrite Hcount; vm_compute; reflexivity|].
  split; [rewrite Hcount; vm_compute; reflexivity|].
  vm_compute. reflexivity.
Defined.

(** ** The file-transfer manager: ports *)

Section Ports.
Import filetransfer.

Lemma allocatePort_scan_Some count port used p :
  allocatePort_scan count port used = Some p ->
  (port <= p < port + Z.of_nat count)%Z
  /\ inUse used p = false
  /\ (forall q, (port <= q < p)%Z -> inUse used q = true).
Proof.
  revert port. induction count as [|count IH]; intros port; [done|].
  cbn [allocatePort_scan].
  destruct (inUse used port) eqn:E; cbn [negb].
  - intros (Hrange & Hfree & Hbusy)%IH. split; [lia|]. split; [done|].
    intros q Hq. destruct (decide (q = port)) as [->|]; [done|].
    apply Hbusy. lia.
  - intros [= <-]. split; [lia|]. split; [done|]. intros q Hq. lia.
Qed.

Lemma allocatePort_scan_None count port used :
  allocatePort_scan count port used = None
  <-> (forall q, (port <= q < port + Z.of_nat count)%Z -> inUse used q = true).
Proof.
  revert port. induction count as [|count IH]; intros port.
  - split; [intros _ q Hq; lia|done].
  - cbn [allocatePort_scan].
    destruct (inUse used port) eqn:E; cbn [negb].
    + rewrite IH. split; intros H q Hq.
      * destruct (decide (q = port)) as [->|]; [done|]. apply H. lia.
      * apply H. lia.
    + split; [done|]. intros H. rewrite H in E by lia. done.
Qed.

(** What [allocatePort] guarantees on its own: the port it returns lies
    in the range, was free and is the first free one of the scan, and is
    marked as used afterwards; it fails, with [ErrNoAvailablePorts],
    exactly when every port of the range is marked as used. *)
Lemma allocatePort_spec (ftm : FileTransferManager) :
  match allocatePort ftm with
  | (ftm', port, None) =>
      (portRangeStart ftm <= port <= portRangeEnd ftm)%Z
      /\ inUse (usedPorts ftm) port = false
      /\ (forall q, (portRangeStart ftm <= q < port)%Z ->
                    inUse (usedPorts ftm) q = true)
      /\ usedPorts ftm' = <[port := true]> (usedPorts ftm)
  | (ftm', _, Some err) =>
      err = ErrNoAvailablePorts /\ ftm' = ftm
      /\ (forall q, (portRangeStart ftm <= q <= portRangeEnd ftm)%Z ->
                    inUse (usedPorts ftm) q = true)
  end.
Proof.
  unfold allocatePort.
  destruct (allocatePort_scan _ _ _) as [port|] eqn:E.
  - apply allocatePort_scan_Some in E as (Hrange & Hfree & Hbusy).
    split; [lia|]. done.
  - split; [done|]. split; [done|]. intros q Hq.
    eapply allocatePort_scan_None; [exact E|]. lia.
Qed.

End Ports.

(** C7. The failing inputs, on a manager with the two ports 35000 and
    35001.  First: a session is accepted and then cancelled; its status
    is cancelled, both ports stay marked as used, and the next accept
    fails with no available ports.  Second: the proxy of an accepted
    session a1 gives up at the expiry and releases both ports, b2 is
    accepted and gets them, the sweeper then removes a1 and releases the
    same two ports again, and c3 is accepted and gets them too: b2 and c3
    hold port 35000 at the same time. *)
Theorem ports_after_cancel_and_double_release :
  let created (id : string) now ftm :=
    (filetransfer.CreateSession ftm (str id) (str "alice@x") (str "bob@x")
                                (str "f.bin") 1048576 (str "sha256") now).1 in
  let accepted (id : string) now ftm := filetransfer.AcceptSession ftm (str id) now in
  let status (id : string) ftm :=
    filetransfer.Status <$> filetransfer.sessions ftm !! str id in
  let holder (id : string) port ftm :=
    (fun session => filetransfer.holds session port)
      <$> filetransfer.sessions ftm !! str id in
  let ftm0 := filetransfer.NewFileTransferManager 35000 35001 in
  let expiry := (1 + 10 * filetransfer.Minute)%Z in
  let a1 := (accepted "a1"%string 1%Z (created "a1"%string 0%Z ftm0)).1.1.1 in
  (* first run *)
  let cancelled := (filetransfer.CancelSession a1 (str "a1")).1 in
  (* second run *)
  let gaveUp := filetransfer.proxyGiveUp a1 35000 35001 in
  let b2 := (accepted "b2"%string (expiry + 2)%Z
               (created "b2"%string (expiry + 1)%Z gaveUp)).1.1.1 in
  let swept := filetransfer.CleanExpired b2 (expiry + 30)%Z in
  let c3 := (accepted "c3"%string (expiry + 32)%Z
               (created "c3"%string (expiry + 31)%Z swept)).1.1.1 in
  (status "a1"%string cancelled = Some (str "cancelled")
   /\ filetransfer.inUse (filetransfer.usedPorts cancelled) 35000 = true
   /\ filetransfer.inUse (filetransfer.usedPorts cancelled) 35001 = true
   /\ (accepted "b2"%string 3%Z (created "b2"%string 2%Z cancelled)).2
      = Some ErrNoAvailablePorts)
  /\ (holder "b2"%string 35000%Z c3 = Some true
      /\ holder "c3"%string 35000%Z c3 = Some true
      /\ status "a1"%string c3 = None).
Proof. vm_compute. repeat split; reflexivity. Qed.

(** C8. The failing input: a session is accepted, both peers connect,
    the copy ends without error and the session is completed; a decline
    then makes it declined, and a cancel makes it cancelled.  A declined
    session is likewise cancelled by a cancel, and a session whose copy
    is interrupted by a cancel goes from cancelled to error. *)
Theorem terminal_status_overwritten :
  let status ftm :=
    filetransfer.Status <$> filetransfer.sessions ftm !! str "a1" in
  let ftm0 := filetransfer.NewFileTransferManager 35000 35999 in
  let pending :=
    (filetransfer.CreateSession ftm0 (str "a1") (str "alice@x") (str "bob@x")
                                (str "f.bin") 1048576 (str "sha256") 0).1 in
  let accepted := (filetransfer.AcceptSession pending (str "a1") 1).1.1.1 in
  let transferring := filetransfer.proxyStartTransfer accepted (str "a1") 7 8 in
  let completed :=
    filetransfer.proxyFinish transferring (str "a1") 7 8 35000 35001 false in
  let declined := (filetransfer.DeclineSession completed (str "a1")).1 in
  let interrupted := (filetransfer.CancelSession transferring (str "a1")).1 in
  status completed = Some (str "completed")
  /\ filetransfer.DeclineSession completed (str "a1") = (declined, None)
  /\ status declined = Some (str "declined")
  /\ status (filetransfer.CancelSession completed (str "a1")).1
     = Some (str "cancelled")
  /\ status (filetransfer.CancelSession declined (str "a1")).1
     = Some (str "cancelled")
  /\ status interrupted = Some (str "cancelled")
  /\ status (filetransfer.proxyFinish interrupted (str "a1") 7 8
                                      35000 35001 true)
     = Some (str "error").
Proof. vm_compute. repeat split; reflexivity. Qed.

(** * Further properties of the code *)

(** ** The codec, field by field *)

Section CodecFields.
Import protocol.

Lemma Escape_rune_cases r :
  (exists c, Escape_rune r = [backslash; c]
             /\ (c = pipe \/ c = comma \/ c = backslash
                 \/ c = letter_n \/ c = letter_r))
  \/ (Escape_rune r = [r]
      /\ r <> pipe /\ r <> comma /\ r <> backslash /\ r <> LF /\ r <> CR).
Proof.
  unfold Escape_rune.
  destruct (N.eqb_spec r pipe) as [->|?];
    [left; eexists; split; [reflexivity|tauto]|].
  destruct (N.eqb_spec r comma) as [->|?];
    [left; eexists; split; [reflexivity|tauto]|].
  destruct (N.eqb_spec r backslash) as [->|?];
    [left; eexists; split; [reflexivity|tauto]|].
  destruct (N.eqb_spec r LF) as [->|?];
    [left; eexists; split; [reflexivity|tauto]|].
  destruct (N.eqb_spec r CR) as [->|?];
    [left; eexists; split; [reflexivity|tauto]|].
  right. done.
Qed.

Lemma splitUnescaped_loop_Escape_any d s rest parts current :
  d = pipe \/ d = comma ->
  splitUnescaped_loop (Escape s ++ rest) d parts current false
  = splitUnescaped_loop rest d parts (current ++ Escape s) false.
Proof.
  intros Hd. revert current. induction s as [|r s IH]; intros current.
  - by rewrite Escape_nil, app_nil_r.
  - rewrite Escape_cons, <- app_assoc.
    destruct (Escape_rune_cases r) as [(c & -> & _)|(-> & Hp & Hc & Hb & _)].
    + cbn. rewrite IH. by rewrite <- !app_assoc.
    + cbn. apply N.eqb_neq in Hb. rewrite Hb.
      replace (r =? d) with false
        by (symmetry; apply N.eqb_neq; destruct Hd; congruence).
      rewrite IH. by rewrite <- !app_assoc.
Qed.

Lemma Escape_lacks (x : rune) s : x = LF \/ x = CR -> x ∉ Escape s.
Proof.
  intros Hx. induction s as [|r s IH].
  - rewrite Escape_nil. apply not_elem_of_nil.
  - rewrite Escape_cons. intros [H|H]%elem_of_app; [|done].
    destruct (Escape_rune_cases r) as [(c & E & Hc)|(E & _ & _ & _ & Hlf & Hcr)];
      rewrite E in H.
    + apply elem_of_cons in H as [->|H]; [destruct Hx; discriminate|].
      apply list_elem_of_singleton in H. subst c.
      destruct Hx; subst x; intuition discriminate.
    + apply list_elem_of_singleton in H. destruct Hx; congruence.
Qed.


(** X2. An escaped field is safe inside a line and inside a list: it
    holds no line feed and no carriage return, and neither a split on
    unescaped pipes nor a split on unescaped commas cuts it. *)
Theorem Escape_protects_delimiters (s : gostring) :
  (LF ∉ Escape s) /\ (CR ∉ Escape s)
  /\ splitUnescaped (Escape s) pipe = [Escape s]
  /\ splitUnescaped (Escape s) comma = [Escape s].
Proof.
  split; [apply Escape_lacks; by left|].
  split; [apply Escape_lacks; by right|].
  unfold splitUnescaped.
  split; rewrite <- (app_nil_r (Escape s)) at 1;
    rewrite splitUnescaped_loop_Escape_any by tauto; reflexivity.
Qed.









End CodecFields.

(** ** Whole packets *)

Section Packets.
Import protocol.

Lemma ParsePacket_parts line :
  ParsePacket line
  = let parts :=
      splitUnescaped
        (strings.TrimSuffix (strings.TrimSuffix line [LF]) [CR]) pipe in
    match parts with
    | [] => inr protocol_ErrInvalidPacket
    | [p0] => inl (mkPacket (unescape p0) [] [] [])
    | [p0; p1] =>
        inl (mkPacket (unescape p0) [] (unescape p1)
                      (splitUnescaped (unescape p1) pipe))
    | p0 :: p1 :: p2 :: _ =>
        inl (mkPacket (unescape p0) (unescape p1) (unescape p2)
                      (splitUnescaped (unescape p2) pipe))
    end.
Proof.
  unfold ParsePacket. cbv zeta.
  destruct (splitUnescaped _ pipe) as [|p0 [|p1 [|p2 ps]]]; reflexivity.
Qed.

Lemma FormatPacket_encode t d c :
  FormatPacket t d c
  = encode (t :: (if streq d [] then [] else [d])
              ++ (if streq c [] then [] else [c])).
Proof.
  unfold FormatPacket, encode.
  destruct (streq d []), (streq c []); reflexivity.
Qed.

(** X5. A packet made by [FormatPacket] with a destination and a
    content parses back to its three strings, and one without a
    destination parses back to its type and content.  A packet with a
    destination and an empty content is written as TYPE|DESTINATION and
    parses back with the destination in the place of the content. *)
Theorem ParsePacket_FormatPacket (t d c : gostring) :
  d <> [] -> c <> [] ->
  ParsePacket (FormatPacket t d c)
  = inl (mkPacket t d c (splitUnescaped c pipe))
  /\ ParsePacket (FormatSimplePacket t c)
     = inl (mkPacket t [] c (splitUnescaped c pipe))
  /\ ParsePacket (FormatPacket t d [])
     = inl (mkPacket t [] d (splitUnescaped d pipe))
  /\ ParsePacket (FormatPacket t [] []) = inl (mkPacket t [] [] []).
Proof.
  intros Hd Hc. unfold FormatSimplePacket.
  rewrite !FormatPacket_encode. unfold streq.
  rewrite !(bool_decide_eq_false_2 (d = [])) by done.
  rewrite !(bool_decide_eq_false_2 (c = [])) by done.
  rewrite !bool_decide_eq_true_2 by reflexivity. cbn [app].
  rewrite !ParsePacket_parts, !parts_of_encode. cbn [map].
  by rewrite !unescape_Escape.
Qed.

(** The theorem on a message packet to bob. *)
Lemma ParsePacket_FormatPacket_witness :
  ParsePacket (FormatPacket (str "msg") (str "bob@x") (str "a|b"))
  = inl (mkPacket (str "msg") (str "bob@x") (str "a|b") [str "a"; str "b"])
  /\ ParsePacket (FormatPacket (str "msg") (str "bob@x") [])
     = inl (mkPacket (str "msg") [] (str "bob@x") [str "bob@x"]).
Proof.
  destruct (ParsePacket_FormatPacket (str "msg") (str "bob@x") (str "a|b"))
    as (H1 & _ & H3 & _); [discriminate..|].
  split; [rewrite H1|rewrite H3]; vm_compute; reflexivity.
Defined.

Lemma TrimSuffix_other s r : last s <> Some r -> strings.TrimSuffix s [r] = s.
Proof.
  intros Hlast. unfold strings.TrimSuffix, strings.HasSuffix.
  destruct (_ && _) eqn:E; [|done].
  apply andb_true_iff in E as [_ E].
  unfold streq in E. apply bool_decide_eq_true in E.
  exfalso. apply Hlast.
  rewrite <- (take_drop (length s - length [r]) s), E.
  apply last_snoc.
Qed.

(** X6. The terminator of a line does not matter to [ParsePacket]: a
    line that does not itself end in CR or LF parses the same with no
    terminator, with LF, with CR and with CR LF. *)
Theorem ParsePacket_terminator (line : gostring) :
  last line <> Some LF -> last line <> Some CR ->
  ParsePacket (line ++ [LF]) = ParsePacket line
  /\ ParsePacket (line ++ [CR]) = ParsePacket line
  /\ ParsePacket (line ++ [CR; LF]) = ParsePacket line.
Proof.
  intros Hlf Hcr. rewrite !ParsePacket_parts.
  rewrite (TrimSuffix_other line LF) by done.
  rewrite (TrimSuffix_other line CR) by done.
  rewrite TrimSuffix_snoc, (TrimSuffix_other line CR) by done.
  rewrite (TrimSuffix_other (line ++ [CR]) LF)
    by (rewrite last_snoc; discriminate).
  rewrite TrimSuffix_snoc.
  change (line ++ [CR; LF]) with (line ++ [CR] ++ [LF]).
  rewrite app_assoc, TrimSuffix_snoc, TrimSuffix_snoc.
  done.
Qed.

(** The theorem on the line [ping]. *)
Lemma ParsePacket_terminator_witness :
  ParsePacket (str "ping" ++ [LF]) = ParsePacket (str "ping")
  /\ ParsePacket (str "ping" ++ [CR]) = ParsePacket (str "ping")
  /\ ParsePacket (str "ping" ++ [CR; LF]) = ParsePacket (str "ping").
Proof. apply ParsePacket_terminator; discriminate. Defined.

End Packets.

(** ** Sessions: login, logout and what the contacts are told *)

Section Presence.
Import models protocol server.
Context {R : Runtime}.

(** The notifications of a presence fan-out: one packet for every
    contact of the list that is in the registry, in the order of the
    list. *)
Lemma presence_fan_out (kind l ts : gostring) (contacts : list Contact)
    (s : Server) :
  fold_left (fun s contact =>
               match getSessionConn s (Contact_ contact) with
               | Some conn => sendPacket s conn kind [l; ts]
               | None => s
               end) contacts s
  = mkServer (db_ s) (sessions s)
      (trace s
       ++ omap (fun contact =>
                  (fun peer => ConnWrite (Conn_ peer) (encode [kind; l; ts]))
                    <$> sessions s !! Contact_ contact) contacts).
Proof.
  revert s. induction contacts as [|c contacts IH]; intros s.
  - cbn. rewrite app_nil_r. by destruct s.
  - cbn [fold_left omap list_omap]. rewrite IH.
    unfold getSessionConn, getSession.
    destruct (sessions s !! Contact_ c) as [peer|];
      cbn [fmap option_fmap option_map].
    + rewrite sendPacket_encode. cbn [write db_ sessions trace].
      by rewrite <- app_assoc.
    + reflexivity.
Qed.

(** X7. Every handler that needs an authenticated session answers
    [fail|<op>|Not authenticated] in a session without a login and does
    nothing else: no statement reaches the repository and nothing is
    written to another socket. *)
Theorem handlers_require_login (s : Server) (session : Session)
    (pkt : Packet) (conn : Conn) (now : time_Time) :
  Login session = [] ->
  let refused op :=
    write s conn (encode [str "fail"; op; str "Not authenticated"]) in
  handleMessage s session pkt conn now = refused (str "msg")
  /\ handleAck s session pkt conn = refused (str "ack")
  /\ handleRenameContact s session pkt conn = refused (str "ren")
  /\ handleDeleteContact s session pkt conn = refused (str "del")
  /\ handleOfflineMessages s session conn = refused (str "offmsg")
  /\ handleList s session conn = refused (str "list").
Proof.
  intros Hlogin refused. subst refused.
  unfold handleMessage, handleAck, handleRenameContact, handleDeleteContact,
    handleOfflineMessages, handleList.
  rewrite Hlogin. unfold streq at 1 2 3 4 5 6.
  rewrite !bool_decide_eq_true_2 by reflexivity.
  rewrite !sendError_write by discriminate. done.
Qed.

(** X8. The first auth of a session that carries a non-empty login and
    password: when the repository accepts the credentials, the session
    gets the login and enters the registry under it (taking the place of
    whatever session was registered for that login), [ok|auth] is
    written, last_online is updated, and then every contact of the user
    that is in the registry is sent [on|login|timestamp]; when it does
    not, the answer is [fail|auth|Invalid credentials] and nothing
    changes. *)
Theorem handleAuth_first (s : Server) (session : Session) (pkt : Packet)
    (conn : Conn) (now : time_Time) (l pw : gostring) :
  Login session = [] ->
  twoArguments pkt = Some (l, pw) -> l <> [] -> pw <> [] ->
  let result := handleAuth s session pkt conn now in
  if (db.AuthenticateUser (db_ s) l pw).1 then
    let registered := mkSession l (Conn_ session) in
    result.2 = registered
    /\ sessions result.1 = <[l := registered]> (sessions s)
    /\ db_ result.1 = (db.UpdateLastOnline (db_ s) l now).1
    /\ trace result.1
       = trace s
         ++ [ConnWrite conn (encode [str "ok"; str "auth"]);
             Repo (db.CallUpdateLastOnline l now)]
         ++ omap (fun contact =>
                    (fun peer =>
                       ConnWrite (Conn_ peer)
                         (encode [str "on"; l; Format_RFC3339 now]))
                      <$> <[l := registered]> (sessions s)
                          !! Contact_ contact)
                 (db.GetContacts (db_ s) l).1
  else
    result
    = (write s conn
         (encode [str "fail"; str "auth"; str "Invalid credentials"]),
       session).
Proof.
  intros Hlogin Hargs Hl Hpw result. subst result. unfold handleAuth.
  rewrite Hargs, Hlogin. unfold streq.
  rewrite (bool_decide_eq_false_2 (l = [])) by done.
  rewrite (bool_decide_eq_false_2 (pw = [])) by done.
  rewrite bool_decide_eq_true_2 by reflexivity. cbn [orb negb].
  destruct (db.AuthenticateUser (db_ s) l pw) as [valid err] eqn:E.
  assert (err = None) as ->.
  { unfold db.AuthenticateUser in E. destruct (db.user_row _ _); congruence. }
  destruct valid; cbn [fst].
  - rewrite sendOK_write by discriminate.
    unfold repo, notifyContactsOnline. cbn [db.run db.UpdateLastOnline].
    cbn [db.GetContacts db_ db.contacts write addSession fst snd].
    rewrite presence_fan_out. unfold write, addSession.
    cbn [fst snd db_ sessions trace].
    repeat split. by rewrite <- !app_assoc.
  - rewrite sendError_write by discriminate. reflexivity.
Qed.

(** X9. [handleAck] in an authenticated session, for a request that
    names a sender and a timestamp: a timestamp that does not parse is
    answered with [fail|ack|Invalid timestamp] and nothing else happens;
    otherwise the rows of the triple are marked, [ok|ack] is written -
    whether or not any row matched - and the sender, if registered, is
    then sent [ack|recipient|timestamp]. *)
Theorem handleAck_relay (s : Server) (session : Session) (pkt : Packet)
    (conn : Conn) (sender timestampStr : gostring) :
  Login session <> [] ->
  twoArguments pkt = Some (sender, timestampStr) ->
  sender <> [] -> timestampStr <> [] ->
  let s' := handleAck s session pkt conn in
  match Parse_Z timestampStr with
  | None =>
      s' = write s conn (encode [str "fail"; str "ack"; str "Invalid timestamp"])
  | Some timestamp =>
      db_ s'
      = (db.MarkMessageAcknowledged (db_ s) sender (Login session) timestamp).1
      /\ sessions s' = sessions s
      /\ trace s'
         = trace s
           ++ [Repo (db.CallMarkMessageAcknowledged sender (Login session)
                                                    timestamp);
               ConnWrite conn (encode [str "ok"; str "ack"])]
           ++ match sessions s !! sender with
              | Some peer =>
                  [ConnWrite (Conn_ peer)
                     (encode [str "ack"; Login session; timestampStr])]
              | None => []
              end
  end.
Proof.
  intros Hlogin Hargs Hsender Hts s'. subst s'. unfold handleAck.
  rewrite Hargs. unfold streq.
  rewrite !bool_decide_eq_false_2 by done. cbn [orb].
  destruct (Parse_Z timestampStr) as [timestamp|].
  - unfold repo. cbn [db.run db.MarkMessageAcknowledged].
    rewrite sendOK_write by discriminate.
    unfold getSessionConn, getSession. cbn [write sessions].
    destruct (sessions s !! sender) as [peer|].
    + rewrite sendPacket_encode. cbn. repeat split.
      by rewrite <- !app_assoc.
    + cbn. repeat split. by rewrite <- !app_assoc.
  - by rewrite sendError_write by discriminate.
Qed.

(** X10. [handleBye] in an authenticated session: [bye] is written
    first, the login leaves the registry - whichever session was
    registered under it -, last_offline is updated, and then every
    contact of the user that is still in the registry is sent
    [off|login|timestamp].  The end of a connection that was lost does
    the same, without the [bye]. *)
Theorem handleBye_authenticated (s : Server) (session : Session)
    (pkt : Packet) (conn : Conn) (now : time_Time) :
  Login session <> [] ->
  let s' := handleBye s session pkt conn now in
  let l := Login session in
  let told :=
    omap (fun contact =>
            (fun peer =>
               ConnWrite (Conn_ peer)
                 (encode [str "off"; l; Format_RFC3339 now]))
              <$> delete l (sessions s) !! Contact_ contact)
         (db.GetContacts (db_ s) l).1 in
  sessions s' = delete l (sessions s)
  /\ db_ s' = (db.UpdateLastOffline (db_ s) l now).1
  /\ trace s'
     = trace s
       ++ [ConnWrite conn (encode [str "bye"]);
           Repo (db.CallUpdateLastOffline l now)]
       ++ told
  /\ connectionLost s session now
     = mkServer (db.UpdateLastOffline (db_ s) l now).1
                (delete l (sessions s))
                (trace s ++ Repo (db.CallUpdateLastOffline l now) :: told).
Proof.
  intros Hlogin s' l told. subst s' l told.
  unfold handleBye, connectionLost, streq.
  rewrite bool_decide_eq_false_2 by done. cbn [negb].
  rewrite sendPacket_encode.
  unfold repo, notifyContactsOffline. cbn [db.run db.UpdateLastOffline].
  cbn [db.GetContacts db_ db.contacts write removeSession fst snd].
  rewrite !presence_fan_out. unfold write, removeSession.
  cbn [fst snd db_ sessions trace].
  repeat split; by rewrite <- ?app_assoc.
Qed.

End Presence.

(** The theorems of this part at concrete sessions: alice has the
    contacts bob, who is online on socket 2, and carol, who is not. *)

Lemma handlers_require_login_witness :
  let anonymous := server.mkSession [] 1 in
  let s := server.mkServer (R := plain_runtime)
             (db.mkDB [db.mkUser (str "bob@x") (str "pw") [] []] [] []) ∅ [] in
  server.trace
    (server.handleMessage s anonymous (request "msg|bob@x|hi") 1 [])
  = [server.ConnWrite 1%nat
       (str "fail|msg|Not authenticated" ++ [protocol.LF])]
  /\ server.trace (server.handleList s anonymous 1)
     = [server.ConnWrite 1%nat
          (str "fail|list|Not authenticated" ++ [protocol.LF])].
Proof.
  intros anonymous s.
  destruct (handlers_require_login (R := plain_runtime) s anonymous
              (request "msg|bob@x|hi") 1%nat [])
    as (H1 & _ & _ & _ & _ & H6); [reflexivity|].
  rewrite H1, H6. split; vm_compute; reflexivity.
Defined.

Lemma handleAuth_first_witness :
  let fresh := server.mkSession [] 1 in
  let bob := server.mkSession (str "bob@x") 2 in
  let T := str "2024-05-01T10:00:00Z" in
  let s := server.mkServer (R := plain_runtime)
             (db.mkDB [db.mkUser (str "alice@x") (str "pw") [] [];
                       db.mkUser (str "bob@x") (str "pw") [] []]
                      [models.mkContact (str "alice@x") (str "bob@x") (str "Bob");
                       models.mkContact (str "alice@x") (str "carol@x") (str "C")]
                      [])
             {[ str "bob@x" := bob ]} [] in
  server.trace (server.handleAuth s fresh (request "auth|alice@x|pw") 1 T).1
  = [server.ConnWrite 1%nat (str "ok|auth" ++ [protocol.LF]);
     server.Repo (db.CallUpdateLastOnline (R := plain_runtime)
                    (str "alice@x") T);
     server.ConnWrite 2%nat
       (str "on|alice@x|2024-05-01T10:00:00Z" ++ [protocol.LF])]
  /\ server.trace
       (server.handleAuth s fresh (request "auth|alice@x|wrong") 1 T).1
     = [server.ConnWrite 1%nat
          (str "fail|auth|Invalid credentials" ++ [protocol.LF])].
Proof.
  intros fresh bob T s. split.
  - pose proof (handleAuth_first (R := plain_runtime) s fresh
                  (request "auth|alice@x|pw") 1%nat T
                  (str "alice@x") (str "pw")) as H.
    cbv zeta in H.
    replace (db.AuthenticateUser (server.db_ s) (str "alice@x") (str "pw")).1
      with true in H by (vm_compute; reflexivity).
    destruct H as (_ & _ & _ & H); [reflexivity|reflexivity|discriminate..|].
    rewrite H. vm_compute. reflexivity.
  - pose proof (handleAuth_first (R := plain_runtime) s fresh
                  (request "auth|alice@x|wrong") 1%nat T
                  (str "alice@x") (str "wrong")) as H.
    cbv zeta in H.
    replace (db.AuthenticateUser (server.db_ s) (str "alice@x")
               (str "wrong")).1
      with false in H by (vm_compute; reflexivity).
    rewrite H; [vm_compute; reflexivity|reflexivity|reflexivity|discriminate..].
Defined.

Lemma handleAck_relay_witness :
  let alice := server.mkSession (str "alice@x") 1 in
  let bob := server.mkSession (str "bob@x") 2 in
  let T := str "2024-05-01T10:00:00Z" in
  let s := server.mkServer (R := plain_runtime) (db.mkDB [] [] [])
             (<[ str "bob@x" := bob ]> {[ str "alice@x" := alice ]}) [] in
  server.trace
    (server.handleAck s bob (request "ack|alice@x|2024-05-01T10:00:00Z") 2)
  = [server.Repo (db.CallMarkMessageAcknowledged (R := plain_runtime)
                    (str "alice@x") (str "bob@x") T);
     server.ConnWrite 2%nat (str "ok|ack" ++ [protocol.LF]);
     server.ConnWrite 1%nat
       (str "ack|bob@x|2024-05-01T10:00:00Z" ++ [protocol.LF])].
Proof.
  intros alice bob T s.
  pose proof (handleAck_relay (R := plain_runtime) s bob
                (request "ack|alice@x|2024-05-01T10:00:00Z") 2%nat
                (str "alice@x") T) as H.
  cbn [Parse_Z plain_runtime] in H.
  destruct H as (_ & _ & H); [discriminate|reflexivity|discriminate..|].
  rewrite H. vm_compute. reflexivity.
Defined.

Lemma handleBye_authenticated_witness :
  let alice := server.mkSession (str "alice@x") 1 in
  let bob := server.mkSession (str "bob@x") 2 in
  let T := str "2024-05-01T10:00:00Z" in
  let s := server.mkServer (R := plain_runtime)
             (db.mkDB [db.mkUser (str "alice@x") (str "pw") [] []]
                      [models.mkContact (str "alice@x") (str "bob@x") (str "Bob")]
                      [])
             (<[ str "bob@x" := bob ]> {[ str "alice@x" := alice ]}) [] in
  let s' := server.handleBye s alice (request "bye") 1 T in
  server.sessions s' !! str "alice@x" = None
  /\ server.trace s'
     = [server.ConnWrite 1%nat (str "bye" ++ [protocol.LF]);
        server.Repo (db.CallUpdateLastOffline (R := plain_runtime)
                       (str "alice@x") T);
        server.ConnWrite 2%nat
          (str "off|alice@x|2024-05-01T10:00:00Z" ++ [protocol.LF])].
Proof.
  intros alice bob T s s'.
  destruct (handleBye_authenticated (R := plain_runtime) s alice
              (request "bye") 1%nat T) as (H1 & _ & H3 & _); [discriminate|].
  fold s' in H1, H3. rewrite H1, H3. split; vm_compute; reflexivity.
Defined.

(** ** A message and its acknowledgement, end to end *)

Section EndToEnd.
Import models protocol server.
Context {R : Runtime}.

(** X11. A message that alice sends to the registered user bob and that
    bob acknowledges with the timestamp of the delivery line ends up in
    the repository with status ackn, provided the runtime parses that
    timestamp back to an instant with the same RFC3339 text. *)
Theorem message_then_ack (s : Server) (alice bob : Session)
    (msg ack : Packet) (connA connB : Conn) (t t' : time_Time) :
  Login alice <> [] -> Login bob <> [] ->
  Destination msg = Login bob -> Content msg <> [] ->
  (db.UserExists (db_ s) (Login bob)).1 = true ->
  Destination ack = Login alice -> Content ack = Format_Z t ->
  Format_Z t <> [] ->
  Parse_Z (Format_Z t) = Some t' ->
  Format_RFC3339 t' = Format_RFC3339 t ->
  let s1 := handleMessage s alice msg connA t in
  let s2 := handleAck s1 bob ack connB in
  db.messages (db_ s1)
  = db.messages (db_ s)
    ++ [mkMessage (Login alice) (Login bob) (Content msg)
                  (Format_RFC3339 t) (str "sent")]
  /\ last (db.messages (db_ s2))
     = Some (mkMessage (Login alice) (Login bob) (Content msg)
                       (Format_RFC3339 t) (str "ackn"))
  /\ length (db.messages (db_ s2)) = S (length (db.messages (db_ s))).
Proof.
  intros HA HB Hdest Htext Hexists Hdest2 Hcontent2 Hz Hparse Hformat s1 s2.
  assert (Hs1 : db_ s1
                = (db.SaveMessage (db_ s) (Login alice) (Login bob)
                                  (Content msg) t).1).
  { subst s1. unfold handleMessage, streq.
    rewrite Hdest. rewrite !bool_decide_eq_false_2 by done.
    unfold db.UserExists in *. cbn [fst] in Hexists. rewrite Hexists.
    unfold repo, getSessionConn, getSession. cbn [db.run db.SaveMessage].
    cbn [sessions]. destruct (sessions s !! Login bob); reflexivity. }
  assert (Hs2 : db_ s2
                = (db.MarkMessageAcknowledged (db_ s1) (Login alice)
                                              (Login bob) t').1).
  { subst s2. unfold handleAck, twoArguments, streq.
    rewrite Hdest2, Hcontent2.
    rewrite !bool_decide_eq_false_2 by done. cbn [negb orb].
    rewrite ?bool_decide_eq_false_2 by done. cbn [negb orb].
    rewrite Hparse. unfold repo, getSessionConn, getSession.
    cbn [db.run db.MarkMessageAcknowledged].
    destruct (sessions _ !! Login alice); reflexivity. }
  split; [by rewrite Hs1|].
  rewrite Hs2, Hs1. cbn [db.SaveMessage db.MarkMessageAcknowledged fst
                           db.messages db.users db.contacts].
  rewrite map_app, length_app, length_map. cbn [map length].
  split; [|lia]. rewrite last_snoc. f_equal.
  unfold db.acknowledges, streq. cbn [Sender Recipient Timestamp Text].
  rewrite Hformat. rewrite !bool_decide_eq_true_2 by reflexivity.
  reflexivity.
Qed.

End EndToEnd.

(** The theorem at scenario 2 of the specification. *)
Lemma message_then_ack_witness :
  let alice := server.mkSession (str "alice@x") 1 in
  let bob := server.mkSession (str "bob@x") 2 in
  let T := str "2024-05-01T10:00:00Z" in
  let s := server.mkServer (R := plain_runtime)
             (db.mkDB [db.mkUser (str "alice@x") (str "pw") [] [];
                       db.mkUser (str "bob@x") (str "pw") [] []] [] [])
             (<[ str "bob@x" := bob ]> {[ str "alice@x" := alice ]}) [] in
  let s1 := server.handleMessage s alice (request "msg|bob@x|hello") 1 T in
  let s2 :=
    server.handleAck s1 bob (request "ack|alice@x|2024-05-01T10:00:00Z") 2 in
  db.messages (server.db_ s2)
  = [models.mkMessage (str "alice@x") (str "bob@x") (str "hello") T
                      (str "ackn")].
Proof.
  intros alice bob T s s1 s2.
  destruct (message_then_ack (R := plain_runtime) s alice bob
              (request "msg|bob@x|hello")
              (request "ack|alice@x|2024-05-01T10:00:00Z") 1%nat 2%nat T T)
    as (_ & Hlast & Hlen);
    [discriminate|discriminate|reflexivity|discriminate|reflexivity
    |reflexivity|reflexivity|discriminate|reflexivity|reflexivity|].
  fold s1 s2 in Hlast, Hlen.
  destruct (db.messages (server.db_ s2)) as [|m [|m' ms]];
    [discriminate|injection Hlast as ->; vm_compute; reflexivity
    |discriminate].
Defined.

(** ** The repository: contacts and history *)

Section Repository.
Import models.

Lemma filter_is_contact_none owner contact (l : list Contact) :
  existsb (db.is_contact owner contact) l = false ->
  filter (fun c => db.is_contact owner contact c = true) l = []
  /\ filter (fun c => db.is_contact owner contact c = false) l = l.
Proof.
  induction l as [|c l IH]; [done|]. cbn [existsb].
  intros [Hc Hl]%orb_false_iff. destruct (IH Hl) as [IH1 IH2].
  rewrite !filter_cons, Hc, IH1, IH2.
  rewrite decide_False by discriminate. by rewrite decide_True.
Qed.

(** X12. Adding a contact and deleting it again: when the owner has no
    row for the contact, [AddContact] succeeds, the contact then exists,
    a second [AddContact] is refused by the UNIQUE constraint, and
    [DeleteContact] gives back exactly the repository from before the
    add; deleting without the row returns [sql.ErrNoRows] and changes
    nothing. *)
Theorem AddContact_then_DeleteContact (d : db.DB)
    (owner contact nick : gostring) :
  (db.ContactExists d owner contact).1 = false ->
  let d1 := (db.AddContact d owner contact nick).1 in
  db.AddContact d owner contact nick = (d1, None)
  /\ db.ContactExists d1 owner contact = (true, None)
  /\ db.AddContact d1 owner contact nick = (d1, Some sql_ErrConstraint)
  /\ db.DeleteContact d1 owner contact = (d, None)
  /\ db.DeleteContact d owner contact = (d, Some sql_ErrNoRows).
Proof.
  intros Hno d1.
  assert (Hex : existsb (db.is_contact owner contact) (db.contacts d) = false).
  { unfold db.ContactExists in Hno. cbn [fst] in Hno.
    apply Nat.ltb_ge in Hno.
    induction (db.contacts d) as [|c l IH]; [done|].
    rewrite filter_cons in Hno. cbn [existsb].
    destruct (db.is_contact owner contact c) eqn:Ec.
    - rewrite decide_True in Hno by done. cbn in Hno. lia.
    - rewrite decide_False in Hno by discriminate. by apply IH. }
  destruct (filter_is_contact_none _ _ _ Hex) as [Hnone Hall].
  assert (Hself : db.is_contact owner contact
                    (mkContact owner contact nick) = true).
  { unfold db.is_contact, streq. cbn.
    by rewrite !bool_decide_eq_true_2. }
  assert (Hadd : db.AddContact d owner contact nick
                 = (db.mkDB (db.users d)
                            (db.contacts d ++ [mkContact owner contact nick])
                            (db.messages d), None)).
  { unfold db.AddContact. by rewrite Hex. }
  subst d1. rewrite Hadd. cbn [fst].
  split; [reflexivity|].
  split.
  { unfold db.ContactExists. cbn [db.contacts].
    rewrite filter_app, Hnone, filter_cons, filter_nil.
    rewrite decide_True by done. reflexivity. }
  split.
  { unfold db.AddContact. cbn [db.contacts].
    rewrite existsb_app, Hex. cbn [existsb orb]. rewrite Hself. reflexivity. }
  split.
  { unfold db.DeleteContact. cbn [db.contacts db.users db.messages].
    rewrite !filter_app, Hnone, Hall, !filter_cons, !filter_nil.
    rewrite decide_True by done. rewrite Hself.
    rewrite decide_False by discriminate. rewrite app_nil_r.
    by destruct d. }
  unfold db.DeleteContact. rewrite Hnone, Hall. by destruct d.
Qed.

(** The theorem when alice, who has carol, adds bob. *)
Lemma AddContact_then_DeleteContact_witness :
  let d := db.mkDB []
             [mkContact (str "alice@x") (str "carol@x") (str "Carol")] [] in
  let d1 := (db.AddContact d (str "alice@x") (str "bob@x") (str "Bob")).1 in
  db.contacts d1
  = [mkContact (str "alice@x") (str "carol@x") (str "Carol");
     mkContact (str "alice@x") (str "bob@x") (str "Bob")]
  /\ db.DeleteContact d1 (str "alice@x") (str "bob@x") = (d, None).
Proof.
  intros d d1.
  destruct (AddContact_then_DeleteContact d (str "alice@x") (str "bob@x")
              (str "Bob")) as (_ & _ & _ & H & _); [reflexivity|].
  split; [vm_compute; reflexivity|exact H].
Defined.

Lemma between_sym a b m : db.between a b m = db.between b a m.
Proof. unfold db.between. apply orb_comm. Qed.

(** X13. [ClearHistory] removes the messages between the two users in
    both directions and nothing else: a message is left exactly when it
    was there and is not between the two; the order of the arguments
    does not matter, clearing again changes nothing, and users and
    contacts are untouched. *)
Theorem ClearHistory_both_directions (d : db.DB) (a b : gostring) :
  let d1 := (db.ClearHistory d a b).1 in
  (forall m, m ∈ db.messages d1
             <-> m ∈ db.messages d
                 /\ ~ ((Sender m = a /\ Recipient m = b)
                       \/ (Sender m = b /\ Recipient m = a)))
  /\ db.ClearHistory d b a = db.ClearHistory d a b
  /\ db.ClearHistory d1 a b = (d1, None)
  /\ db.users d1 = db.users d /\ db.contacts d1 = db.contacts d.
Proof.
  intros d1. subst d1. unfold db.ClearHistory. cbn [fst db.messages].
  split.
  { intros m. rewrite list_elem_of_filter.
    unfold db.between, streq.
    rewrite orb_false_iff, !andb_false_iff, !bool_decide_eq_false.
    destruct (decide (Sender m = a)), (decide (Recipient m = b)),
      (decide (Sender m = b)), (decide (Recipient m = a)); tauto. }
  split.
  { f_equal. f_equal. apply list_filter_iff. intros m.
    by rewrite between_sym. }
  split; [|done].
  cbn [db.users db.contacts db.messages]. f_equal. f_equal.
  rewrite list_filter_filter. apply list_filter_iff. tauto.
Qed.

End Repository.

(** ** The file-transfer manager: accepting, finishing, sweeping *)

Section Transfers.
Import filetransfer.

Lemma inUse_insert (used : gmap Z bool) (p q : Z) :
  inUse (<[p := true]> used) q = if decide (q = p) then true else inUse used q.
Proof.
  unfold inUse. destruct (decide (q = p)) as [->|Hne].
  - by rewrite lookup_insert_eq.
  - by rewrite lookup_insert_ne.
Qed.

Lemma inUse_delete (used : gmap Z bool) (p q : Z) :
  inUse (delete p used) q = if decide (q = p) then false else inUse used q.
Proof.
  unfold inUse. destruct (decide (q = p)) as [->|Hne].
  - by rewrite lookup_delete_eq.
  - by rewrite lookup_delete_ne.
Qed.

Lemma allocatePort_fields (ftm : FileTransferManager) :
  let ftm' := (allocatePort ftm).1.1 in
  sessions ftm' = sessions ftm
  /\ portRangeStart ftm' = portRangeStart ftm
  /\ portRangeEnd ftm' = portRangeEnd ftm
  /\ closed ftm' = closed ftm.
Proof.
  unfold allocatePort. by destruct (allocatePort_scan _ _ _).
Qed.

(** X14. A port of the range that was just released can be allocated
    again: after [releasePort] of a port of the range, [allocatePort]
    succeeds and returns that port or a lower one. *)
Theorem releasePort_then_allocatePort (ftm : FileTransferManager) (p : Z) :
  (portRangeStart ftm <= p <= portRangeEnd ftm)%Z ->
  exists ftm' q,
    allocatePort (releasePort ftm p) = (ftm', q, None)
    /\ (portRangeStart ftm <= q <= p)%Z.
Proof.
  intros Hp.
  pose proof (allocatePort_spec (releasePort ftm p)) as H.
  destruct (allocatePort (releasePort ftm p)) as [[ftm' q] [err|]].
  - destruct H as (_ & _ & Hbusy). exfalso.
    specialize (Hbusy p Hp). cbn in Hbusy.
    rewrite inUse_delete, decide_True in Hbusy by done. done.
  - exists ftm', q. split; [reflexivity|].
    destruct H as (Hrange & _ & Hfirst & _). cbn in Hrange, Hfirst.
    split; [lia|]. destruct (decide (q <= p)%Z) as [|Hgt]; [done|].
    exfalso. specialize (Hfirst p ltac:(lia)).
    rewrite inUse_delete, decide_True in Hfirst by done. done.
Qed.

(** The theorem on a manager whose two ports are taken, after the first
    one is released. *)
Lemma releasePort_then_allocatePort_witness :
  let ftm := mkManager ∅ 35000 35001
               (<[35001%Z := true]> {[ 35000%Z := true ]}) [] in
  exists ftm' q,
    allocatePort (releasePort ftm 35000) = (ftm', q, None)
    /\ (35000 <= q <= 35000)%Z.
Proof.
  intros ftm.
  apply (releasePort_then_allocatePort ftm 35000). cbn. lia.
Defined.

(** What a successful [AcceptSession] has done. *)
Lemma AcceptSession_success (ftm ftm' : FileTransferManager)
    (id : gostring) (now up down : Z) :
  AcceptSession ftm id now = (ftm', up, down, None) ->
  exists session,
    sessions ftm !! id = Some session
    /\ Status session = str "pending"
    /\ (portRangeStart ftm <= up <= portRangeEnd ftm)%Z
    /\ (portRangeStart ftm <= down <= portRangeEnd ftm)%Z
    /\ up <> down
    /\ inUse (usedPorts ftm) up = false
    /\ inUse (usedPorts ftm) down = false
    /\ ftm'
       = mkManager
           (<[id := mkFileSession (ID session) (Sender session)
                      (Recipient session) (Filename session) (Size session)
                      (Hash session) up down (UploadConn session)
                      (DownloadConn session) (str "accepted")
                      (CreatedAt session) (now + 10 * Minute)]>
              (sessions ftm))
           (portRangeStart ftm) (portRangeEnd ftm)
           (<[down := true]> (<[up := true]> (usedPorts ftm)))
           (closed ftm).
Proof.
  unfold AcceptSession.
  destruct (sessions ftm !! id) as [session|] eqn:Eid; [|discriminate].
  unfold streq.
  destruct (decide (Status session = str "pending")) as [Hst|Hst].
  2: { rewrite bool_decide_eq_false_2 by done. discriminate. }
  rewrite bool_decide_eq_true_2 by done. cbn [negb].
  pose proof (allocatePort_spec ftm) as H1.
  pose proof (allocatePort_fields ftm) as F1.
  destruct (allocatePort ftm) as [[ftm1 p1] [err|]]; [discriminate|].
  cbn in F1. destruct F1 as (Fs & Fa & Fb & Fc).
  destruct H1 as (Hr1 & Hfree1 & _ & Hused1).
  pose proof (allocatePort_spec ftm1) as H2.
  pose proof (allocatePort_fields ftm1) as F2.
  destruct (allocatePort ftm1) as [[ftm2 p2] [err|]]; [discriminate|].
  cbn in F2. destruct F2 as (Gs & Ga & Gb & Gc).
  destruct H2 as (Hr2 & Hfree2 & _ & Hused2).
  intros [= <- <- <-]. exists session.
  rewrite Hused1, inUse_insert in Hfree2.
  destruct (decide (p2 = p1)) as [|Hne]; [discriminate|].
  repeat split; try done; try lia.
  unfold setSession. rewrite Gs, Fs, Ga, Fa, Gb, Fb, Gc, Fc, Hused2, Hused1.
  reflexivity.
Qed.

(** X15. [AcceptSession] in all its cases.  On success the session was
    pending, the two ports are different ports of the range that were
    free, both are now in use, and the session is accepted with these
    ports and ten minutes to go.  On failure the sessions are unchanged
    and no port stays reserved, and the error is [session not found]
    for an unknown id, [session not in pending state] for a session of
    any other status, and [no available ports] when fewer than two
    ports of the range are free. *)
Theorem AcceptSession_cases (ftm : FileTransferManager) (id : gostring)
    (now : Z) :
  match AcceptSession ftm id now with
  | (ftm', up, down, None) =>
      exists session,
        sessions ftm !! id = Some session
        /\ Status session = str "pending"
        /\ (portRangeStart ftm <= up <= portRangeEnd ftm)%Z
        /\ (portRangeStart ftm <= down <= portRangeEnd ftm)%Z
        /\ up <> down
        /\ inUse (usedPorts ftm) up = false
        /\ inUse (usedPorts ftm) down = false
        /\ usedPorts ftm' = <[down := true]> (<[up := true]> (usedPorts ftm))
        /\ exists accepted,
             sessions ftm' = <[id := accepted]> (sessions ftm)
             /\ Status accepted = str "accepted"
             /\ UploadPort accepted = up /\ DownloadPort accepted = down
             /\ ExpiresAt accepted = (now + 10 * Minute)%Z
  | (ftm', _, _, Some err) =>
      sessions ftm' = sessions ftm
      /\ (forall q, inUse (usedPorts ftm') q = inUse (usedPorts ftm) q)
      /\ match sessions ftm !! id with
         | None => err = ErrSessionNotFound
         | Some session =>
             if decide (Status session = str "pending") then
               err = ErrNoAvailablePorts
               /\ (forall p q,
                     (portRangeStart ftm <= p <= portRangeEnd ftm)%Z ->
                     (portRangeStart ftm <= q <= portRangeEnd ftm)%Z ->
                     inUse (usedPorts ftm) p = false ->
                     inUse (usedPorts ftm) q = false -> p = q)
             else err = ErrSessionNotPending
         end
  end.
Proof.
  destruct (AcceptSession ftm id now) as [[[ftm' up] down] [err|]] eqn:E.
  2: { apply AcceptSession_success in E
         as (session & ? & ? & ? & ? & ? & ? & ? & ->).
       exists session. do 7 (split; [done|]). split; [reflexivity|].
       eexists. split; [reflexivity|]. done. }
  unfold AcceptSession in E.
  destruct (sessions ftm !! id) as [session|] eqn:Eid.
  2: { by injection E as <- _ _ <-. }
  unfold streq in E.
  destruct (decide (Status session = str "pending")) as [Hst|Hst].
  2: { rewrite bool_decide_eq_false_2 in E by done.
       by injection E as <- _ _ <-. }
  rewrite bool_decide_eq_true_2 in E by done. cbn [negb] in E.
  pose proof (allocatePort_spec ftm) as H1.
  pose proof (allocatePort_fields ftm) as F1.
  destruct (allocatePort ftm) as [[ftm1 p1] [err1|]].
  { injection E as <- _ _ <-. destruct H1 as (-> & -> & Hbusy).
    repeat split; try done.
    intros p q Hp _ Hfree _. rewrite Hbusy in Hfree by done. done. }
  cbn in F1. destruct F1 as (Fs & Fa & Fb & Fc).
  destruct H1 as (Hr1 & Hfree1 & _ & Hused1).
  pose proof (allocatePort_spec ftm1) as H2.
  destruct (allocatePort ftm1) as [[ftm2 p2] [err2|]]; [|discriminate].
  injection E as <- _ _ <-. destruct H2 as (-> & -> & Hbusy).
  cbn [releasePort sessions usedPorts]. rewrite Hused1.
  split; [done|]. split.
  { intros q. rewrite inUse_delete, inUse_insert.
    destruct (decide (q = p1)) as [->|]; done. }
  split; [done|].
  assert (Hall : forall q,
            (portRangeStart ftm <= q <= portRangeEnd ftm)%Z ->
            inUse (usedPorts ftm) q = false -> q = p1).
  { intros q Hq Hfree. rewrite Fa, Fb in Hbusy. specialize (Hbusy q Hq).
    rewrite Hused1, inUse_insert in Hbusy.
    destruct (decide (q = p1)); [done|congruence]. }
  intros p q Hp Hq Hfp Hfq.
  rewrite (Hall p Hp Hfp), (Hall q Hq Hfq). reflexivity.
Qed.

(** X16. A session is accepted once: after a successful accept, another
    [AcceptSession] of the same session fails with [session not in
    pending state] and changes nothing. *)
Theorem AcceptSession_twice (ftm ftm' : FileTransferManager) (id : gostring)
    (now now' up down : Z) :
  AcceptSession ftm id now = (ftm', up, down, None) ->
  AcceptSession ftm' id now' = (ftm', 0%Z, 0%Z, Some ErrSessionNotPending).
Proof.
  intros (session & _ & _ & _ & _ & _ & _ & _ & ->)%AcceptSession_success.
  unfold AcceptSession. cbn [sessions]. rewrite lookup_insert_eq.
  reflexivity.
Qed.

(** X17. A transfer that runs to its end gives its ports back: after a
    successful accept, the start of the copy and its end, with or
    without a copy error, every port is in use exactly when it was
    before the accept, and the session is completed, or in error after
    a failed copy. *)
Theorem finished_transfer_frees_ports (ftm ftm' : FileTransferManager)
    (id : gostring) (now up down : Z) (uploadConn downloadConn : Conn)
    (copyFailed : bool) :
  AcceptSession ftm id now = (ftm', up, down, None) ->
  let final :=
    proxyFinish (proxyStartTransfer ftm' id uploadConn downloadConn) id
                uploadConn downloadConn up down copyFailed in
  (forall q, inUse (usedPorts final) q = inUse (usedPorts ftm) q)
  /\ Status <$> sessions final !! id
     = Some (if copyFailed then str "error" else str "completed")
  /\ closed final = closed ftm ++ [uploadConn; downloadConn].
Proof.
  intros (session & _ & _ & _ & _ & Hne & Hup & Hdown & ->)%AcceptSession_success
         final.
  subst final. unfold proxyStartTransfer. cbn [sessions].
  rewrite lookup_insert_eq. unfold proxyFinish, setSession.
  cbn [sessions portRangeStart portRangeEnd usedPorts closed].
  rewrite lookup_insert_eq.
  cbn [releasePort sessions portRangeStart portRangeEnd usedPorts closed].
  split.
  { intros q. rewrite !inUse_delete, !inUse_insert.
    destruct (decide (q = down)) as [->|]; [done|].
    destruct (decide (q = up)) as [->|]; done. }
  rewrite lookup_insert_eq. done.
Qed.

End Transfers.

(** The theorems on accepting at a manager with one pending session. *)

Lemma AcceptSession_twice_witness :
  let ftm :=
    (filetransfer.CreateSession
       (filetransfer.NewFileTransferManager 35000 35999) (str "a1")
       (str "alice@x") (str "bob@x") (str "f.bin") 10 (str "h") 0).1 in
  let accepted := (filetransfer.AcceptSession ftm (str "a1") 1).1.1.1 in
  filetransfer.AcceptSession accepted (str "a1") 2
  = (accepted, 0%Z, 0%Z, Some ErrSessionNotPending).
Proof.
  intros ftm accepted.
  apply (AcceptSession_twice ftm accepted (str "a1") 1 2 35000 35001).
  vm_compute. reflexivity.
Defined.

Lemma finished_transfer_frees_ports_witness :
  let ftm :=
    (filetransfer.CreateSession
       (filetransfer.NewFileTransferManager 35000 35999) (str "a1")
       (str "alice@x") (str "bob@x") (str "f.bin") 10 (str "h") 0).1 in
  let accepted := (filetransfer.AcceptSession ftm (str "a1") 1).1.1.1 in
  let final :=
    filetransfer.proxyFinish
      (filetransfer.proxyStartTransfer accepted (str "a1") 7 8) (str "a1")
      7 8 35000 35001 false in
  filetransfer.inUse (filetransfer.usedPorts accepted) 35000 = true
  /\ filetransfer.inUse (filetransfer.usedPorts final) 35000 = false
  /\ filetransfer.Status <$> filetransfer.sessions final !! str "a1"
     = Some (str "completed").
Proof.
  intros ftm accepted final.
  destruct (finished_transfer_frees_ports ftm accepted (str "a1") 1 35000
              35001 7%nat 8%nat false) as (Hports & Hstatus & _);
    [vm_compute; reflexivity|].
  fold final in Hports, Hstatus.
  split; [vm_compute; reflexivity|]. split; [|exact Hstatus].
  rewrite Hports. vm_compute. reflexivity.
Defined.

(** ** The sweeper *)

Section Sweeper.
Import filetransfer.

Lemma cleanOne_expired now id session ftm :
  expired now session = true ->
  sessions (cleanOne now id session ftm) = delete id (sessions ftm)
  /\ portRangeStart (cleanOne now id session ftm) = portRangeStart ftm
  /\ portRangeEnd (cleanOne now id session ftm) = portRangeEnd ftm
  /\ (forall q,
        inUse (usedPorts (cleanOne now id session ftm)) q
        = if decide (q ∈ sweptPorts session) then false
          else inUse (usedPorts ftm) q).
Proof.
  intros Hexp. unfold cleanOne, sweptPorts. rewrite Hexp.
  destruct (0 <? UploadPort session)%Z, (0 <? DownloadPort session)%Z;
    cbn [closeConns releasePort sessions portRangeStart portRangeEnd
         usedPorts app];
    (repeat split; try done); intros q; rewrite ?inUse_delete;
    repeat match goal with
           | |- context [decide (q = ?p)] => destruct (decide (q = p))
           end;
    repeat match goal with
           | |- context [decide (?a ∈ ?l)] => destruct (decide (a ∈ l))
           end;
    try done; set_solver.
Qed.

Lemma cleanOne_kept now id session ftm :
  expired now session = false -> cleanOne now id session ftm = ftm.
Proof. intros Hexp. unfold cleanOne. by rewrite Hexp. Qed.

(** What the loop of [CleanExpired] has done after the sessions of [m]. *)
Lemma CleanExpired_loop (ftm : FileTransferManager) (now : Z)
    (m : gmap gostring FileSession) :
  let r := map_fold (cleanOne now) ftm m in
  (forall k,
     sessions r !! k
     = match m !! k with
       | Some x => if expired now x then None else sessions ftm !! k
       | None => sessions ftm !! k
       end)
  /\ portRangeStart r = portRangeStart ftm
  /\ portRangeEnd r = portRangeEnd ftm
  /\ (forall q,
        inUse (usedPorts r) q = true
        <-> inUse (usedPorts ftm) q = true
            /\ ~ (exists k x, m !! k = Some x /\ expired now x = true
                              /\ q ∈ sweptPorts x)).
Proof.
  apply (map_fold_weak_ind
           (fun r m =>
              (forall k,
                 sessions r !! k
                 = match m !! k with
                   | Some x => if expired now x then None
                               else sessions ftm !! k
                   | None => sessions ftm !! k
                   end)
              /\ portRangeStart r = portRangeStart ftm
              /\ portRangeEnd r = portRangeEnd ftm
              /\ (forall q,
                    inUse (usedPorts r) q = true
                    <-> inUse (usedPorts ftm) q = true
                        /\ ~ (exists k x,
                                m !! k = Some x /\ expired now x = true
                                /\ q ∈ sweptPorts x)))).
  - split; [intros k; by rewrite lookup_empty|].
    split; [done|]. split; [done|].
    intros q. split; [|tauto]. intros H. split; [done|].
    intros (k & x & Hk & _). by rewrite lookup_empty in Hk.
  - intros i x m' r Hi (Hs & Ha & Hb & Hp).
    assert (Hothers : forall q,
              (exists k y, <[i := x]> m' !! k = Some y
                           /\ expired now y = true /\ q ∈ sweptPorts y)
              <-> (expired now x = true /\ q ∈ sweptPorts x)
                  \/ (exists k y, m' !! k = Some y /\ expired now y = true
                                  /\ q ∈ sweptPorts y)).
    { intros q. split.
      - intros (k & y & Hk & Hy & Hin).
        destruct (decide (k = i)) as [->|Hne].
        + rewrite lookup_insert_eq in Hk. injection Hk as ->. by left.
        + rewrite lookup_insert_ne in Hk by done. right. eauto.
      - intros [[Hx Hin]|(k & y & Hk & Hy & Hin)].
        + exists i, x. by rewrite lookup_insert_eq.
        + exists k, y. rewrite lookup_insert_ne; [done|]. congruence. }
    destruct (expired now x) eqn:Hexp.
    + destruct (cleanOne_expired now i x r Hexp) as (Es & Ea & Eb & Ep).
      split.
      { intros k. rewrite Es. destruct (decide (k = i)) as [->|Hne].
        - by rewrite lookup_delete_eq, lookup_insert_eq, Hexp.
        - rewrite lookup_delete_ne, lookup_insert_ne by done. apply Hs. }
      split; [congruence|]. split; [congruence|].
      intros q. rewrite Ep, Hothers.
      destruct (decide (q ∈ sweptPorts x)) as [Hq|Hq].
      * split; [done|]. intros [_ H]. exfalso. apply H. by left.
      * rewrite Hp. split; intros [H1 H2]; (split; [done|]); tauto.
    + rewrite cleanOne_kept by done.
      split.
      { intros k. destruct (decide (k = i)) as [->|Hne].
        - rewrite lookup_insert_eq, Hexp. rewrite Hs, Hi. done.
        - rewrite lookup_insert_ne by done. apply Hs. }
      split; [done|]. split; [done|].
      intros q. rewrite Hp, Hothers.
      split; intros [H1 H2]; (split; [done|]).
      * intros [[? ?]|?]; [discriminate|tauto].
      * intros ?. apply H2. by right.
Qed.

(** X18. The sweeper removes exactly the sessions that are past their
    expiry and not completed, and leaves every other session as it is;
    in particular a completed session is never removed, however old it
    is. *)
Theorem CleanExpired_sessions (ftm : FileTransferManager) (now : Z)
    (id : gostring) :
  sessions (CleanExpired ftm now) !! id
  = match sessions ftm !! id with
    | Some session => if expired now session then None else Some session
    | None => None
    end
  /\ (forall session,
        sessions ftm !! id = Some session ->
        Status session = str "completed" ->
        sessions (CleanExpired ftm now) !! id = Some session).
Proof.
  destruct (CleanExpired_loop ftm now (sessions ftm)) as (Hs & _).
  unfold CleanExpired. split.
  - rewrite Hs. by destruct (sessions ftm !! id).
  - intros session Hid Hst. rewrite Hs, Hid.
    unfold expired, streq. rewrite Hst.
    rewrite bool_decide_eq_true_2 by done. by rewrite andb_false_r.
Qed.

(** X19. The sweeper and the ports: after [CleanExpired] a port is in
    use exactly when it was in use before and is not the upload or
    download port (a positive one) of a session that was swept.  So the
    sweeper frees the ports that a swept session names whether or not
    that session still holds them. *)
Theorem CleanExpired_ports (ftm : FileTransferManager) (now : Z) (q : Z) :
  inUse (usedPorts (CleanExpired ftm now)) q = true
  <-> inUse (usedPorts ftm) q = true
      /\ ~ (exists id session,
              sessions ftm !! id = Some session
              /\ expired now session = true
              /\ q ∈ sweptPorts session).
Proof.
  destruct (CleanExpired_loop ftm now (sessions ftm)) as (_ & _ & _ & Hp).
  apply Hp.
Qed.

End Sweeper.

(** ** Port numbers as text *)

Section Itoa.
Import filetransfer.
Open Scope Z_scope.

Lemma decimal_value_snoc (s : gostring) (r : rune) :
  decimal_value (s ++ [r]) = 10 * decimal_value s + (Z.of_N r - 48).
Proof. unfold decimal_value. by rewrite fold_left_app. Qed.

Lemma itoa_loop_buf room n buf :
  itoa_loop room n buf = itoa_loop room n [] ++ buf.
Proof.
  revert n buf. induction room as [|room IH]; intros n buf; [done|].
  cbn [itoa_loop]. destruct (0 <? n); [|done].
  rewrite IH, (IH _ [_]). by rewrite <- app_assoc.
Qed.

Lemma itoa_loop_zero room buf : itoa_loop room 0 buf = buf.
Proof. by destruct room. Qed.

Lemma itoa_loop_digits (room : nat) (n : Z) :
  0 <= n < 10 ^ Z.of_nat room ->
  decimal_value (itoa_loop room n []) = n
  /\ Forall is_digit (itoa_loop room n [])
  /\ (0 < n -> exists r rest,
                 itoa_loop room n [] = r :: rest /\ r <> 48%N).
Proof.
  revert n. induction room as [|room IH]; intros n Hn.
  - cbn in Hn. assert (n = 0) as -> by lia.
    split; [done|]. split; [constructor|lia].
  - rewrite Nat2Z.inj_succ, Z.pow_succ_r in Hn by lia.
    cbn [itoa_loop]. destruct (Z.ltb_spec 0 n) as [Hpos|Hzero].
    2: { assert (n = 0) as -> by lia.
         split; [done|]. split; [constructor|lia]. }
    rewrite itoa_loop_buf.
    pose proof (Z.mod_pos_bound n 10 ltac:(lia)) as Hmod.
    pose proof (Z.div_mod n 10 ltac:(lia)) as Hdiv.
    destruct (IH (n / 10)) as (Hval & Hdig & Hhead).
    { split; [apply Z.div_pos; lia|].
      apply Z.div_lt_upper_bound; lia. }
    split.
    { rewrite decimal_value_snoc, Hval, Z2N.id by lia. lia. }
    split.
    { apply Forall_app. split; [done|]. constructor; [|constructor].
      unfold is_digit. lia. }
    intros _. destruct (Z.eq_dec (n / 10) 0) as [Hq|Hq].
    + rewrite Hq, itoa_loop_zero. eexists _, []. split; [reflexivity|].
      lia.
    + destruct Hhead as (r & rest & -> & Hr).
      { pose proof (Z.div_pos n 10). lia. }
      exists r, (rest ++ [Z.to_N (48 + n mod 10)]). done.
Qed.

(** X20. [itoa] writes a port number in decimal: for every number from
    0 up to the largest int, the result is a non-empty string of digits
    that denotes the number, without a leading zero except for 0
    itself. *)
Theorem itoa_decimal (n : Z) :
  0 <= n < 2 ^ 63 ->
  decimal_value (itoa n) = n
  /\ Forall is_digit (itoa n)
  /\ exists r rest, itoa n = r :: rest /\ (0 < n -> r <> 48%N).
Proof.
  intros Hn. unfold itoa. destruct (Z.ltb_spec n 10) as [Hsmall|Hbig].
  - rewrite Z.mod_small by lia. split.
    { unfold decimal_value. cbn [fold_left]. rewrite Z2N.id by lia. lia. }
    split.
    { constructor; [|constructor]. unfold is_digit. lia. }
    eexists _, []. split; [reflexivity|]. lia.
  - destruct (itoa_loop_digits 20 n) as (Hval & Hdig & Hhead).
    { change (10 ^ Z.of_nat 20) with 100000000000000000000.
      change (2 ^ 63) with 9223372036854775808 in Hn. lia. }
    split; [done|]. split; [done|].
    destruct Hhead as (r & rest & -> & Hr); [lia|].
    exists r, rest. done.
Qed.

(** The theorem on the default first port. *)
Lemma itoa_decimal_witness :
  decimal_value (itoa 35000) = 35000
  /\ Forall is_digit (itoa 35000)
  /\ exists r rest, itoa 35000 = r :: rest /\ (0 < 35000 -> r <> 48%N).
Proof.
  apply itoa_decimal. change (2 ^ 63) with 9223372036854775808. lia.
Defined.

End Itoa.

(** ** The client reads what the server writes *)

Section ClientCodec.
Import protocol.

Lemma Escape_flat_map s : Escape s = flat_map Escape_rune s.
Proof.
  induction s as [|r s IH]; [done|]. rewrite Escape_cons, IH. reflexivity.
Qed.





Lemma client_Unescape_loop_agrees s escaped result :
  client.Unescape_loop s escaped result = unescape_loop s escaped result.
Proof.
  revert escaped result.
  induction s as [|ch s IH]; intros escaped result; [reflexivity|].
  cbn [client.Unescape_loop unescape_loop].
  destruct escaped; [apply IH|].
  destruct (ch =? backslash) eqn:E; cbn [andb]; [|apply IH].
  destruct s as [|ch' s]; [|rewrite bool_decide_eq_false_2 by done; apply IH].
  rewrite bool_decide_eq_true_2 by done.
  apply N.eqb_eq in E. subst ch. reflexivity.
Qed.

Lemma client_Unescape_agrees s : client.Unescape s = unescape s.
Proof. apply client_Unescape_loop_agrees. Qed.


Lemma splitPacket_loop_Escape x rest parts current :
  client.splitPacket_loop (Escape x ++ rest) parts current false
  = client.splitPacket_loop rest parts (current ++ Escape x) false.
Proof.
  revert current. induction x as [|r x IH]; intros current.
  - by rewrite Escape_nil, app_nil_r.
  - rewrite Escape_cons, <- app_assoc.
    destruct (Escape_rune_cases r) as [(c & -> & _)|(-> & Hp & _ & Hb & _)].
    + cbn. rewrite IH. by rewrite <- !app_assoc.
    + cbn. apply N.eqb_neq in Hb, Hp. rewrite Hb, Hp.
      rewrite IH. by rewrite <- !app_assoc.
Qed.

Lemma splitPacket_loop_Join x xs parts :
  client.splitPacket_loop (strings.Join (map Escape (x :: xs)) [pipe])
                          parts [] false
  = parts ++ x :: xs.
Proof.
  revert x parts. induction xs as [|y ys IH]; intros x parts.
  - cbn [map strings.Join]. rewrite <- (app_nil_r (Escape x)) at 1.
    rewrite splitPacket_loop_Escape. cbn [client.splitPacket_loop app].
    by rewrite client_Unescape_agrees, unescape_Escape.
  - rewrite !map_cons, Join_cons2, splitPacket_loop_Escape.
    change ([pipe] ++ ?t) with (pipe :: t). cbn [client.splitPacket_loop].
    change (pipe =? backslash) with false. rewrite N.eqb_refl.
    rewrite <- map_cons, IH. cbn [app].
    rewrite client_Unescape_agrees, unescape_Escape.
    by rewrite <- app_assoc.
Qed.

(** The line of a vector without its line feed. *)
Lemma encode_Join x : encode x = strings.Join (map Escape x) [pipe] ++ [LF].
Proof. reflexivity. Qed.

Lemma Join_Escape_tail t fields :
  exists tail,
    strings.Join (map Escape (t :: fields)) [pipe] = Escape t ++ tail
    /\ (tail = [] \/ exists y, tail = pipe :: y)
    /\ (fields <> [] -> tail <> []).
Proof.
  destruct fields as [|f fields].
  - exists []. cbn. rewrite app_nil_r. split; [done|]. split; [by left|done].
  - rewrite !map_cons, Join_cons2. eexists. split; [reflexivity|].
    split; [right; eexists; reflexivity|done].
Qed.

(** A line that starts with a plain word and a pipe has that word as
    its first field. *)
Lemma HasPrefix_Escape (word t tail : gostring) :
  Forall (fun c => c <> backslash /\ c <> pipe) word ->
  tail = [] \/ (exists y, tail = pipe :: y) ->
  client.HasPrefix (Escape t ++ tail) (word ++ [pipe]) = true ->
  t = word.
Proof.
  intros Hword Htail. revert t.
  induction Hword as [|c word [Hcb Hcp] Hword IH]; intros t.
  - destruct t as [|r t]; [done|].
    rewrite Escape_cons.
    destruct (Escape_rune_cases r) as [(x & -> & _)|(-> & Hp & _)];
      cbn [app client.HasPrefix].
    + change (backslash =? pipe) with false. discriminate.
    + apply N.eqb_neq in Hp. rewrite Hp. discriminate.
  - destruct t as [|r t].
    + rewrite Escape_nil.
      destruct Htail as [->|(y & ->)]; cbn [app client.HasPrefix];
        [discriminate|].
      replace (pipe =? c) with false
        by (symmetry; apply N.eqb_neq; congruence).
      discriminate.
    + rewrite Escape_cons, <- app_assoc.
      destruct (Escape_rune_cases r) as [(x & -> & _)|(-> & _)];
        cbn [app client.HasPrefix].
      * replace (backslash =? c) with false
          by (symmetry; apply N.eqb_neq; congruence).
        discriminate.
      * destruct (N.eqb_spec r c) as [->|]; [|discriminate].
        cbn [andb]. intros H. f_equal. by apply IH.
Qed.

(** X22. The client decodes what [sendPacket] writes: for a packet type
    other than the four composite ones (hist, stat, list, offmsg) and a
    line that is not empty, the decoding step of the client's read loop
    yields exactly the type and the fields the server passed, whatever
    their number and content. *)
Theorem readLine_encode (t : gostring) (fields : list gostring) :
  t <> str "hist" -> t <> str "stat" -> t <> str "list" ->
  t <> str "offmsg" ->
  t <> [] \/ fields <> [] ->
  client.readLine (encode (t :: fields)) = Some (t :: fields).
Proof.
  intros Hhist Hstat Hlist Hoffmsg Hnonempty.
  unfold client.readLine. rewrite encode_Join, TrimSuffix_snoc.
  destruct (Join_Escape_tail t fields) as (tail & Hline & Htail & Hfields).
  assert (Hne : strings.Join (map Escape (t :: fields)) [pipe] <> []).
  { rewrite Hline. destruct Hnonempty as [Ht|Hf].
    - destruct t as [|r t]; [done|]. rewrite Escape_cons.
      destruct (Escape_rune_cases r) as [(x & -> & _)|(-> & _)]; done.
    - intros [_ ?]%app_eq_nil. by apply Hfields. }
  unfold streq. rewrite bool_decide_eq_false_2 by done.
  assert (Hprefix : forall word,
            Forall (fun c => c <> backslash /\ c <> pipe) word ->
            t <> word ->
            client.HasPrefix (strings.Join (map Escape (t :: fields)) [pipe])
                             (word ++ [pipe]) = false).
  { intros word Hword Ht. rewrite Hline.
    destruct (client.HasPrefix _ _) eqn:E; [|done].
    exfalso. apply Ht. by eapply HasPrefix_Escape. }
  change (str "hist|") with (str "hist" ++ [pipe]).
  change (str "stat|") with (str "stat" ++ [pipe]).
  change (str "list|") with (str "list" ++ [pipe]).
  change (str "offmsg|") with (str "offmsg" ++ [pipe]).
  rewrite !Hprefix;
    try done;
    try (repeat constructor; discriminate).
  cbn [orb]. f_equal. apply (splitPacket_loop_Join t fields []).
Qed.

(** The theorem on a forwarded message whose text holds a pipe and a
    comma. *)
Lemma readLine_encode_witness :
  client.readLine
    (encode [str "msg"; str "alice@x"; str "a|b,c"; str "2024-05-01T10:00:00Z"])
  = Some [str "msg"; str "alice@x"; str "a|b,c"; str "2024-05-01T10:00:00Z"].
Proof.
  apply readLine_encode; try discriminate. left. discriminate.
Defined.

End ClientCodec.

(** ** The contact list, from the server to the client *)

Section ContactList.
Import protocol.
Context {R : Runtime}.

(** The item of one contact in the list response. *)
Lemma item_as_Join (a b : gostring) :
  Escape a ++ [pipe] ++ Escape b = strings.Join (map Escape [a; b]) [pipe].
Proof. reflexivity. Qed.

Lemma SplitList_loop_Escape x rest parts current :
  client.SplitList_loop (Escape x ++ rest) parts current false
  = client.SplitList_loop rest parts (current ++ Escape x) false.
Proof.
  revert current. induction x as [|r x IH]; intros current.
  - by rewrite Escape_nil, app_nil_r.
  - rewrite Escape_cons, <- app_assoc.
    destruct (Escape_rune_cases r) as [(c & -> & _)|(-> & _ & Hc & Hb & _)];
      cbn [app client.SplitList_loop].
    + change (backslash =? backslash) with true.
      rewrite IH. by rewrite <- !app_assoc.
    + apply N.eqb_neq in Hb, Hc. rewrite Hb, Hc.
      rewrite IH. by rewrite <- !app_assoc.
Qed.

Lemma SplitList_loop_item a b rest parts current :
  client.SplitList_loop ((Escape a ++ [pipe] ++ Escape b) ++ rest)
                        parts current false
  = client.SplitList_loop rest parts
      (current ++ Escape a ++ [pipe] ++ Escape b) false.
Proof.
  rewrite <- !app_assoc, (SplitList_loop_Escape a).
  cbn [app client.SplitList_loop].
  change (pipe =? backslash) with false. change (pipe =? comma) with false.
  cbv iota. rewrite (SplitList_loop_Escape b). by rewrite <- !app_assoc.
Qed.

Lemma SplitList_loop_Join {A} (f : A -> gostring) (c : A) (cs : list A)
    parts :
  (forall c rest parts current,
     client.SplitList_loop (f c ++ rest) parts current false
     = client.SplitList_loop rest parts (current ++ f c) false) ->
  client.SplitList_loop (strings.Join (map f (c :: cs)) [comma])
                        parts [] false
  = parts ++ map f (c :: cs).
Proof.
  intros Hf. revert c parts. induction cs as [|c' cs IH]; intros c parts.
  - cbn [map strings.Join]. rewrite <- (app_nil_r (f c)) at 1.
    rewrite Hf. reflexivity.
  - rewrite !map_cons, Join_cons2, Hf.
    cbn [app client.SplitList_loop].
    change (comma =? backslash) with false. rewrite N.eqb_refl.
    cbv iota. rewrite <- map_cons, IH.
    by rewrite <- app_assoc.
Qed.

Lemma ParseContacts_fold (cs : list models.Contact) (acc : list client.Contact) :
  fold_left (fun contacts item =>
               let parts := client.splitPacket item in
               if (2 <=? length parts)%nat then
                 contacts ++ [client.mkContact (nth 0 parts []) (nth 1 parts [])]
               else contacts)
            (map (fun c => Escape (models.Contact_ c) ++ [pipe]
                           ++ Escape (models.Nick c)) cs) acc
  = acc ++ map (fun c => client.mkContact (models.Contact_ c) (models.Nick c))
               cs.
Proof.
  revert acc. induction cs as [|c cs IH]; intros acc.
  - cbn. by rewrite app_nil_r.
  - cbn [map fold_left]. rewrite IH. cbv beta zeta.
    rewrite item_as_Join. unfold client.splitPacket.
    rewrite (splitPacket_loop_Join _ _ []). cbn [app length Nat.leb nth].
    by rewrite <- app_assoc.
Qed.

(** X23. The contact list survives the wire.  In an authenticated
    session [handleList] writes one line; the client's read loop splits
    it into the type [list] and the payload, and [ParseContacts] turns
    the payload into exactly the contacts of the user, each with its id
    and nick, in the order of the repository - whatever pipes, commas,
    backslashes or line breaks the ids and nicks contain. *)
Theorem handleList_read_by_client (s : server.Server)
    (session : server.Session) (conn : nat) :
  server.Login session <> [] ->
  exists payload,
    server.handleList s session conn
    = server.write s conn (str "list|" ++ payload ++ [LF])
    /\ client.readLine (str "list|" ++ payload ++ [LF])
       = Some [str "list"; payload]
    /\ client.ParseContacts payload
       = map (fun c => client.mkContact (models.Contact_ c) (models.Nick c))
             (db.GetContacts (server.db_ s) (server.Login session)).1.
Proof.
  intros Hlogin.
  set (contacts := (db.GetContacts (server.db_ s) (server.Login session)).1).
  exists (strings.Join
            (map (fun c => Escape (models.Contact_ c) ++ [pipe]
                           ++ Escape (models.Nick c)) contacts) [comma]).
  split.
  { unfold server.handleList, streq.
    rewrite bool_decide_eq_false_2 by done.
    cbn [db.GetContacts]. unfold server.sendPacketRaw.
    rewrite fold_left_snoc_map. reflexivity. }
  split.
  { unfold client.readLine.
    change (str "list|" ++ ?p ++ [LF]) with ((str "list|" ++ p) ++ [LF]).
    rewrite TrimSuffix_snoc.
    generalize (strings.Join
                  (map (fun c => Escape (models.Contact_ c) ++ [pipe]
                                 ++ Escape (models.Nick c)) contacts) [comma]).
    intros [|ch payload]; reflexivity. }
  unfold client.ParseContacts, client.SplitList, streq.
  destruct contacts as [|c cs]; [reflexivity|].
  rewrite bool_decide_eq_false_2.
  2: { destruct cs; cbn [map strings.Join];
         intros [_ H]%app_eq_nil; discriminate H. }
  rewrite (SplitList_loop_Join _ c cs [])
    by (intros; apply SplitList_loop_item).
  cbn [app].
  apply (ParseContacts_fold (c :: cs) []).
Qed.

End ContactList.

(** The theorem on alice's list, whose second nick holds a pipe and a
    comma. *)
Lemma handleList_read_by_client_witness :
  let alice := server.mkSession (str "alice@x") 1 in
  let s := server.mkServer (R := plain_runtime)
             (db.mkDB []
                [models.mkContact (str "alice@x") (str "bob@x") (str "Bob");
                 models.mkContact (str "carol@x") (str "dave@x") (str "D");
                 models.mkContact (str "alice@x") (str "eve@x") (str "E|v,e")]
                [])
             {[ str "alice@x" := alice ]} [] in
  exists payload,
    server.trace (server.handleList s alice 1)
    = [server.ConnWrite 1%nat (str "list|" ++ payload ++ [protocol.LF])]
    /\ client.ParseContacts payload
       = [client.mkContact (str "bob@x") (str "Bob");
          client.mkContact (str "eve@x") (str "E|v,e")].
Proof.
  intros alice s.
  destruct (handleList_read_by_client (R := plain_runtime) s alice 1%nat)
    as (payload & Hwrite & _ & Hparse); [discriminate|].
  exists payload. rewrite Hwrite, Hparse. split; reflexivity.
Defined.

(** ** From the socket to the dispatcher *)

Section ReadLoop.
Import protocol.

Lemma TrimLeft_head s r :
  head s = Some r -> strings.IsSpace r = false -> strings.TrimLeft s = s.
Proof. destruct s as [|x s]; [done|]. cbn. intros [= ->] ->. done. Qed.

Lemma TrimSpace_line (l : gostring) (first final : rune) :
  head l = Some first -> strings.IsSpace first = false ->
  last l = Some final -> strings.IsSpace final = false ->
  strings.TrimSpace (l ++ [LF]) = l.
Proof.
  intros Hhead Hfirst Hlast Hfinal. unfold strings.TrimSpace.
  rewrite (TrimLeft_head (l ++ [LF]) first);
    [|by destruct l|done].
  rewrite rev_app_distr. cbn [rev app strings.TrimLeft].
  change (strings.IsSpace LF) with true. cbv iota.
  rewrite (TrimLeft_head (rev l) final); [apply rev_involutive| |done].
  destruct l as [|x l _] using rev_ind; [done|].
  rewrite last_snoc in Hlast. rewrite rev_app_distr. cbn. congruence.
Qed.

Lemma Escape_app a b : Escape (a ++ b) = Escape a ++ Escape b.
Proof. rewrite !Escape_flat_map. apply flat_map_app. Qed.

Lemma Escape_rune_ends r :
  strings.IsSpace r = false ->
  exists x y rest,
    Escape_rune r = x :: rest /\ last (Escape_rune r) = Some y
    /\ strings.IsSpace x = false /\ strings.IsSpace y = false.
Proof.
  intros Hr.
  destruct (Escape_rune_cases r) as [(c & -> & Hc)|(-> & _)].
  - exists backslash, c, [c]. split; [done|]. split; [done|].
    split; [reflexivity|].
    destruct Hc as [->|[->|[->|[->| ->]]]]; reflexivity.
  - exists r, r, []. done.
Qed.

(** X24. What the dispatcher gets for a line of three fields: if the
    type does not begin and the content does not end with a white-space
    rune, the read loop of the server hands the dispatcher a packet with
    exactly the type, destination and content that were escaped and
    joined into the line. *)
Theorem decodeLine_encode (t d c : gostring) (first final : rune) :
  head t = Some first -> strings.IsSpace first = false ->
  last c = Some final -> strings.IsSpace final = false ->
  server.decodeLine (encode [t; d; c])
  = server.Dispatch (mkPacket t d c (splitUnescaped c pipe)).
Proof.
  intros Hhead Hfirst Hlast Hfinal.
  destruct t as [|r t]; [done|]. injection Hhead as ->.
  destruct c as [|x c _] using rev_ind; [done|].
  rewrite last_snoc in Hlast. injection Hlast as ->.
  destruct (Escape_rune_ends first Hfirst) as (a & _ & resta & Ea & _ & Ha & _).
  destruct (Escape_rune_ends final Hfinal) as (_ & b & _ & _ & Eb & _ & Hb).
  unfold server.decodeLine. rewrite encode_Join.
  rewrite (TrimSpace_line _ a b); try done.
  - assert (Hne : strings.Join (map Escape [first :: t; d; c ++ [final]])
                               [pipe] <> []).
    { cbn [map strings.Join]. rewrite Escape_cons, Ea. done. }
    unfold streq. rewrite bool_decide_eq_false_2 by done.
    rewrite <- encode_Join, ParsePacket_parts, parts_of_encode.
    cbn [map]. by rewrite !unescape_Escape.
  - cbn [map strings.Join]. rewrite Escape_cons, Ea. reflexivity.
  - cbn [map strings.Join]. rewrite Escape_app, !app_assoc.
    rewrite (Escape_cons final []), Escape_nil, app_nil_r.
    destruct (Escape_rune final) as [|y ys] using rev_ind; [done|].
    rewrite app_assoc, last_snoc. by rewrite last_snoc in Eb.
Qed.

(** The theorem on a message line. *)
Lemma decodeLine_encode_witness :
  server.decodeLine (encode [str "msg"; str "bob@x"; str "a|b"])
  = server.Dispatch
      (mkPacket (str "msg") (str "bob@x") (str "a|b") [str "a"; str "b"]).
Proof.
  rewrite (decodeLine_encode (str "msg") (str "bob@x") (str "a|b") 109 98);
    reflexivity.
Defined.

End ReadLoop.

(** ** The contact list after a rename and after a delete *)

Section ContactsAfter.
Import models protocol server.
Context {R : Runtime}.




(** The contact that [handleDeleteContact] takes from a packet. *)
Lemma db_handleDeleteContact (s : Server) session pkt conn contact :
  Login session <> [] ->
  (if negb (streq (Destination pkt) []) then Destination pkt
   else if (0 <? length (Fields pkt))%nat then nth 0 (Fields pkt) []
        else Content pkt) = contact ->
  contact <> [] ->
  db_ (handleDeleteContact s session pkt conn)
  = (db.DeleteContact (db_ s) (Login session) contact).1.
Proof.
  intros Hlogin Hdest Hcontact.
  unfold handleDeleteContact.
  unfold streq at 1. rewrite (bool_decide_eq_false_2 (Login session = [])) by done.
  rewrite Hdest. unfold streq.
  rewrite !(bool_decide_eq_false_2 (contact = [])) by done.
  unfold repo. cbn [db.run].
  destruct (db.DeleteContact _ _ _) as [d [err|]]; cbn [fst].
  - destruct (bool_decide _); reflexivity.
  - reflexivity.
Qed.


(** X26. After a delete request in an authenticated session that names
    a contact - in the destination or, as in the line [del|contact],
    in the first field -, the contact list of the user is the one from
    before without the rows of that contact; the contact lists of the
    other users, the users and the messages are unchanged. *)
Theorem contacts_after_delete (s : Server) (session : Session)
    (pkt : Packet) (conn : Conn) (contact : gostring) :
  Login session <> [] ->
  (if negb (streq (Destination pkt) []) then Destination pkt
   else if (0 <? length (Fields pkt))%nat then nth 0 (Fields pkt) []
        else Content pkt) = contact ->
  contact <> [] ->
  let s' := handleDeleteContact s session pkt conn in
  (db.GetContacts (db_ s') (Login session)).1
  = filter (fun c => Contact_ c <> contact)
           (db.GetContacts (db_ s) (Login session)).1
  /\ (forall owner, owner <> Login session ->
                    db.GetContacts (db_ s') owner
                    = db.GetContacts (db_ s) owner)
  /\ db.users (db_ s') = db.users (db_ s)
  /\ db.messages (db_ s') = db.messages (db_ s).
Proof.
  intros Hlogin Hdest Hcontact s'. subst s'.
  rewrite (db_handleDeleteContact s session pkt conn contact) by done.
  assert (Hdb : (db.DeleteContact (db_ s) (Login session) contact).1
                = db.mkDB (db.users (db_ s))
                    (filter (fun c => db.is_contact (Login session) contact c
                                      = false) (db.contacts (db_ s)))
                    (db.messages (db_ s))).
  { unfold db.DeleteContact. by destruct (_ =? _)%nat. }
  rewrite Hdb. unfold db.GetContacts.
  cbn [fst db.contacts db.users db.messages].
  split; [|split; [|done]].
  - rewrite !list_filter_filter. apply list_filter_iff. intros c.
    unfold db.is_contact, streq.
    rewrite andb_false_iff, !bool_decide_eq_false, !bool_decide_eq_true.
    destruct (decide (Owner c = Login session)),
      (decide (Contact_ c = contact)); tauto.
  - intros owner Hne. f_equal.
    rewrite !list_filter_filter. apply list_filter_iff. intros c.
    unfold db.is_contact, streq.
    rewrite andb_false_iff, !bool_decide_eq_false, !bool_decide_eq_true.
    split; [tauto|]. intros Hc. split; [done|]. left. congruence.
Qed.

End ContactsAfter.


Lemma contacts_after_delete_witness :
  let alice := server.mkSession (str "alice@x") 1 in
  let s := server.mkServer (R := plain_runtime)
             (db.mkDB []
                [models.mkContact (str "alice@x") (str "bob@x") (str "Bob");
                 models.mkContact (str "alice@x") (str "carol@x") (str "C")]
                [])
             {[ str "alice@x" := alice ]} [] in
  (db.GetContacts
     (server.db_ (server.handleDeleteContact s alice
                    (request "del|bob@x") 1)) (str "alice@x")).1
  = [models.mkContact (str "alice@x") (str "carol@x") (str "C")].
Proof.
  intros alice s.
  destruct (contacts_after_delete (R := plain_runtime) s alice
              (request "del|bob@x") 1%nat (str "bob@x"))
    as (H & _); [discriminate|reflexivity|discriminate|].
  refine (eq_trans H _). vm_compute. reflexivity.
Defined.
